(** * dev-cli.py: log tailing and Helm rollback for the EKS sample application

    A shallow embedding of [sample-demo/scripts/dev-cli.py] (class
    [DevOpsCLI]) and the properties of its revision resolution, rollback
    orchestration, pod discovery and pod selection.

    Conventions of the embedding.
    - Processes, the keyboard and the library decoders ([json.loads], [int])
      are the [Runtime] the program runs on; every theorem holds for all of
      them.
    - A method with effects is a function on the trace of events so far
      (newest event first) returning its result, or the exception it raises,
      with the extended trace.
    - JSON documents are seen through the schema of the collaborators:
      [helm list] yields releases, [helm history] revision records,
      [kubectl get pods -o json] an object whose [items] field is absent,
      null or a list of pods, or a document that is no object at all.
    - A text of Python is held as the bytes of its UTF-8 encoding. *)

From Stdlib Require Import ZArith String Ascii List Bool Lia.
From Stdlib Require Import Permutation Sorted DecimalString.
Import ListNotations.
Local Open Scope string_scope.
Local Open Scope list_scope.

(** ** Python built-ins used by the script *)

Module Py.

(** [str(n)] for an [int]. *)
Definition str (z : Z) : string := NilZero.string_of_int (Z.to_int z).

(** Truth value of an [Optional[str]]: [None] and [''] are false. *)
Definition truthy_str (o : option string) : bool :=
  match o with
  | Some (String _ _) => true
  | _ => false
  end.

(** Truth value of an [Optional[List]]: [None] and [[]] are false. *)
Definition truthy_list {A : Type} (o : option (list A)) : bool :=
  match o with
  | Some (_ :: _) => true
  | _ => false
  end.

(** [c.isspace()] for a character of the ASCII range. *)
Definition isspace (c : ascii) : bool :=
  let n := nat_of_ascii c in
  ((9 <=? n) && (n <=? 13) || (28 <=? n) && (n <=? 32))%nat.

(** The white space characters beyond ASCII, by the bytes of their
    encoding: U+0085 and U+00A0 on two bytes; U+1680, U+2000 to U+200A,
    U+2028, U+2029, U+202F, U+205F and U+3000 on three. *)
Definition isspace2 (a b : ascii) : bool :=
  let x := nat_of_ascii a in
  let y := nat_of_ascii b in
  ((x =? 194) && ((y =? 133) || (y =? 160)))%nat.

Definition isspace3 (a b c : ascii) : bool :=
  let x := nat_of_ascii a in
  let y := nat_of_ascii b in
  let z := nat_of_ascii c in
  ((x =? 225) && (y =? 154) && (z =? 128)
   || (x =? 226) && (y =? 128)
      && ((128 <=? z) && (z <=? 138) || (z =? 168) || (z =? 169) || (z =? 175))
   || (x =? 226) && (y =? 129) && (z =? 159)
   || (x =? 227) && (y =? 128) && (z =? 128))%nat.

(** [s.lstrip()] *)
Fixpoint lstrip (s : string) : string :=
  match s with
  | String a s1 =>
      if isspace a then lstrip s1
      else
        match s1 with
        | String b s2 =>
            if isspace2 a b then lstrip s2
            else
              match s2 with
              | String c s3 => if isspace3 a b c then lstrip s3 else s
              | EmptyString => s
              end
        | EmptyString => s
        end
  | EmptyString => EmptyString
  end.

(** [lstrip] on a text read backwards, the last byte first. *)
Fixpoint lstrip_backwards (s : string) : string :=
  match s with
  | String c s1 =>
      if isspace c then lstrip_backwards s1
      else
        match s1 with
        | String b s2 =>
            if isspace2 b c then lstrip_backwards s2
            else
              match s2 with
              | String a s3 =>
                  if isspace3 a b c then lstrip_backwards s3 else s
              | EmptyString => s
              end
        | EmptyString => s
        end
  | EmptyString => EmptyString
  end.

Fixpoint rev_onto (s acc : string) : string :=
  match s with
  | String c s' => rev_onto s' (String c acc)
  | EmptyString => acc
  end.

Definition reverse (s : string) : string := rev_onto s EmptyString.

(** [s.strip()] *)
Definition strip (s : string) : string :=
  reverse (lstrip_backwards (reverse (lstrip s))).

Definition lower_char (c : ascii) : ascii :=
  let n := nat_of_ascii c in
  if ((65 <=? n) && (n <=? 90))%nat then ascii_of_nat (n + 32) else c.

(** [s.lower()], on the letters of the ASCII range; the script compares
    the result with ['y'] only, and no letter beyond that range becomes
    [y]. *)
Fixpoint lower (s : string) : string :=
  match s with
  | String c s' => String (lower_char c) (lower s')
  | EmptyString => EmptyString
  end.

(** [x in xs] for a list of [int]. *)
Definition contains (x : Z) (xs : list Z) : bool := existsb (Z.eqb x) xs.

Section Sorted.
Context {A : Type} (key : A -> Z).

(** One step of a stable descending sort: [x] stood before every element
    of [l] in the input, so it goes in front of the first element whose
    key is not greater than its own. *)
Fixpoint insert_reverse (x : A) (l : list A) : list A :=
  match l with
  | [] => [x]
  | y :: l' =>
      if (key y <=? key x)%Z then x :: y :: l'
      else y :: insert_reverse x l'
  end.

(** [sorted(l, key=key, reverse=True)]: descending by key, elements of
    equal key in their input order. *)
Fixpoint sorted_reverse (l : list A) : list A :=
  match l with
  | [] => []
  | x :: l' => insert_reverse x (sorted_reverse l')
  end.
End Sorted.

End Py.

(** ** Data model *)

(** An entry of [helm history -o json]. *)
Record RevisionRecord := {
  h_revision : Z;
  h_description : string;
  h_updated : string
}.

(** An entry of [helm list -o json]. *)
Record Release := {
  r_name : string;
  r_revision : Z
}.

(** An item of [kubectl get pods -o json]: [metadata.name], [status.phase]. *)
Record Pod := {
  metadata_name : string;
  status_phase : string
}.

(** The parsed body of [kubectl get pods -o json] when it is an object:
    [items] is [None] when the field is absent, [Some None] when it is
    [null], [Some (Some l)] when it is the list [l]. *)
Record PodList := {
  items : option (option (list Pod))
}.

(** What [json.loads] makes of the body of [kubectl get pods]. *)
Inductive Loaded :=
| Malformed                        (* JSONDecodeError *)
| NotAnObject                      (* a list, a number, a string, ... *)
| PodObject (data : PodList).

Inductive Level := INFO | SUCCESS | WARNING | ERROR.

(** The messages the script logs, one constructor per [self.log] call, with
    the values interpolated into the text. *)
Inductive Msg :=
| MExecuting (command : list string)            (* Executing: ... *)
| MCommandFailed (command : list string) (returncode : Z) (* Command failed: ... *)
| MOutput (stdout : string)                     (* Output: ... *)
| MError (stderr : string)                      (* Error: ... *)
| MCommandNotFound (exe : string)               (* Command not found: ... *)
| MInvalidEnvironment (environment : string) (valid : list string)
| MFailedToParsePods                            (* Failed to parse pod information *)
| MTailingLogs (app environment : string)
| MNoPodsFound                                  (* No pods found *)
| MUsingPod (pod_name : string)                 (* Using pod: ... *)
| MMultiplePodsFound                            (* Multiple pods found: *)
| MPodChoice (i : nat) (pod_name status : string) (*   i: name (status) *)
| MInvalidSelection                             (* Invalid selection *)
| MOperationCancelled                           (* Operation cancelled *)
| MStartingLogTail (pod_name : string)
| MPressCtrlC
| MLogTailingStopped
| MFailedToParseReleases
| MFailedToParseHistory
| MInitiatingRollback (app environment : string)
| MNoHelmReleasesFound                          (* No Helm releases found *)
| MReleaseNotFound (app : string)
| MCurrentRevision (current_revision : Z)
| MCouldNotGetHistory                           (* Could not get release history *)
| MNoPreviousRevisionsAvailable   (* No previous revisions available for rollback *)
| MNoPreviousRevisionFound                      (* No previous revision found *)
| MRevisionNotFound (target_revision : Z) (valid_revisions : list Z)
                                  (* Revision r not found. Available: [...] *)
| MTargetRevision (target_revision : Z)
| MRollingBackTo (description : string)
| MUpdated (updated : string)
| MRollbackCancelled                            (* Rollback cancelled *)
| MExecutingRollback                            (* Executing rollback... *)
| MRollbackInitiated               (* Rollback initiated successfully *)
| MWaitingForDeployment
| MRollbackCompleted               (* Rollback completed successfully *)
| MCurrentPods
| MPodStatus (pod_name status : string)
| MRollbackMayHaveFailed   (* Rollback may have failed - check deployment status *)
| MRollbackFailed.                              (* Rollback failed *)

(** ** Revision resolution *)

(** [rollback_release], from [if len(history) < 2 and revision is None] to
    the end of "Determine target revision": the target revision, or the
    message logged at level ERROR before the method returns. *)
Definition determine_target_revision
    (history : list RevisionRecord) (revision : option Z) : Msg + Z :=
  if ((length history <? 2)%nat && match revision with None => true | _ => false end)%bool
  then inl MNoPreviousRevisionsAvailable
  else
    match revision with
    | None =>
        let sorted_history := Py.sorted_reverse h_revision history in
        match sorted_history with
        | _ :: second :: _ => inr (h_revision second)
        | _ => inl MNoPreviousRevisionFound
        end
    | Some target_revision =>
        let valid_revisions := map h_revision history in
        if negb (Py.contains target_revision valid_revisions)
        then inl (MRevisionNotFound target_revision valid_revisions)
        else inr target_revision
    end.

(** The revision numbers of a history without repetition. *)
Definition distinct_revisions (history : list RevisionRecord) : list Z :=
  nodup Z.eq_dec (map h_revision history).

(** The second-highest revision number of a history, a repeated number
    counting once: what the previous revision is meant to be. *)
Definition second_highest_revision (history : list RevisionRecord)
    : option Z :=
  nth_error (Py.sorted_reverse (fun z => z) (distinct_revisions history)) 1.

(** Some revision number occurs in two entries of the history. *)
Fixpoint shares_revision (history : list RevisionRecord) : bool :=
  match history with
  | [] => false
  | h :: rest =>
      existsb (fun k => (h_revision k =? h_revision h)%Z) rest
      || shares_revision rest
  end.

Definition rev_entry (n : Z) : RevisionRecord :=
  {| h_revision := n; h_description := "upgrade"; h_updated := "today" |}.

(** ** The runtime: processes, keyboard, library decoders *)

(** The other exceptions of [subprocess.run], for which [run_command]
    has no clause. *)
Inductive Uncaught :=
| PermissionDenied                 (* PermissionError: not executable *)
| Undecodable                      (* UnicodeDecodeError: text=True *)
| Other (name : string).           (* any other class of Exception *)

(** How a spawned process ends; the texts of [Exited] are decoded. *)
Inductive Outcome :=
| Exited (returncode : Z) (stdout stderr : string)
| NoSuchFile                       (* the executable does not exist *)
| CtrlC                            (* interrupted while it runs *)
| Crashed (e : Uncaught).          (* [subprocess.run] raises [e] *)

(** What [input()] meets on the terminal. *)
Inductive Stdin :=
| Line (s : string)
| Interrupt
| EndOfFile.

Inductive Prompt :=
| PSelectPod (last : Z)            (* Select pod (0-last): *)
| PProceed.                        (* Proceed with rollback? (y/N): *)

Inductive Exn :=
| CalledProcessError (returncode : Z) (stdout stderr : option string)
| FileNotFoundError
| KeyboardInterrupt
| EOFError
| ValueError
| IndexError
| PermissionError
| UnicodeDecodeError
| AttributeError
| OtherException (name : string).

Definition exception_of (e : Uncaught) : Exn :=
  match e with
  | PermissionDenied => PermissionError
  | Undecodable => UnicodeDecodeError
  | Other name => OtherException name
  end.

Inductive Event :=
| ELog (level : Level) (message : Msg)
| EExec (command : list string) (capture_output : bool) (outcome : Outcome)
| EInput (prompt : Prompt) (answer : Stdin)
| EPrint (text : string).

(** The outcome of a process and the answer at a prompt may depend on the
    instant, the number of events so far.  The decoders are [json.loads]
    seen through the schema of each document ([None]: [JSONDecodeError])
    and [int] on a string ([None]: [ValueError]). *)
Record Runtime := {
  spawn : nat -> list string -> Outcome;
  keyboard : nat -> Stdin;
  loads_releases : string -> option (list Release);
  loads_history : string -> option (list RevisionRecord);
  json_loads_pods : string -> Loaded;
  int_of_str : string -> option Z
}.

(** The pod list object that the body parses to, if it does. *)
Definition loads_pods (rt : Runtime) (text : string) : option PodList :=
  match json_loads_pods rt text with
  | PodObject data => Some data
  | _ => None
  end.

(** ** Computations over the trace *)

Inductive Result (A : Type) :=
| Returned (a : A)
| Raised (e : Exn).
Arguments Returned {A} a.
Arguments Raised {A} e.

Definition Trace := list Event.

Definition M (A : Type) : Type := Trace -> Result A * Trace.

Definition ret {A} (a : A) : M A := fun tr => (Returned a, tr).

Definition bind {A B} (m : M A) (k : A -> M B) : M B :=
  fun tr =>
    match m tr with
    | (Returned a, tr') => k a tr'
    | (Raised e, tr') => (Raised e, tr')
    end.

Definition raise {A} (e : Exn) : M A := fun tr => (Raised e, tr).

Definition emit (e : Event) : M unit := fun tr => (Returned tt, e :: tr).

(** [try: m except ...]: [handler e] is the clause that catches [e]. *)
Definition try_except {A} (m : M A) (handler : Exn -> option (M A)) : M A :=
  fun tr =>
    match m tr with
    | (Raised e, tr') =>
        match handler e with
        | Some h => h tr'
        | None => (Raised e, tr')
        end
    | r => r
    end.

Declare Scope py_scope.
Delimit Scope py_scope with py.
Notation "x <- m ;; k" := (bind m (fun x => k))
  (at level 61, m at next level, right associativity) : py_scope.
Notation "m ;; k" := (bind m (fun _ => k))
  (at level 61, right associativity) : py_scope.
Local Open Scope py_scope.

(** [for x in l: f(x)] *)
Fixpoint for_each {A} (f : A -> M unit) (l : list A) : M unit :=
  match l with
  | [] => ret tt
  | x :: l' => f x ;; for_each f l'
  end.

(** [enumerate(l)], counting from [i]. *)
Fixpoint enumerate_from {A} (i : nat) (l : list A) : list (nat * A) :=
  match l with
  | [] => []
  | x :: l' => (i, x) :: enumerate_from (S i) l'
  end.

Definition enumerate {A} (l : list A) : list (nat * A) := enumerate_from 0 l.

(** The events a computation adds to the trace [tr], newest first. *)
Definition emitted {A} (m : M A) (tr : Trace) : list Event :=
  let tr' := snd (m tr) in firstn (length tr' - length tr) tr'.

Definition result_of {A} (m : M A) (tr : Trace) : Result A := fst (m tr).

(** ** class DevOpsCLI *)

Definition app_name : string := "sample-app".
Definition valid_environments : list string := ["dev"; "stage"; "prod"].
Definition cluster_prefix : string := "demo-eks".
Definition region : string := "us-west-2".

Section DevOpsCLI.

Variable rt : Runtime.

(** [print(text)] *)
Definition print (text : string) : M unit := emit (EPrint text).

(** [log]: the timestamp and the colour codes are left out. *)
Definition log (message : Msg) (level : Level) : M unit :=
  emit (ELog level message).

(** [input(prompt)] *)
Definition input (prompt : Prompt) : M string :=
  fun tr =>
    let answer := keyboard rt (length tr) in
    let tr' := EInput prompt answer :: tr in
    match answer with
    | Line s => (Returned s, tr')
    | Interrupt => (Raised KeyboardInterrupt, tr')
    | EndOfFile => (Raised EOFError, tr')
    end.

(** [int(s)] *)
Definition int (s : string) : M Z :=
  match int_of_str rt s with
  | Some z => ret z
  | None => raise ValueError
  end.

(** [subprocess.run(command, capture_output=..., text=True, check=...)],
    returning [result.stdout]. *)
Definition subprocess_run (command : list string)
    (capture_output check : bool) : M (option string) :=
  fun tr =>
    let outcome := spawn rt (length tr) command in
    let tr' := EExec command capture_output outcome :: tr in
    let captured (s : string) := if capture_output then Some s else None in
    match outcome with
    | Exited returncode stdout stderr =>
        if (check && negb (returncode =? 0)%Z)%bool
        then (Raised (CalledProcessError returncode
                        (captured stdout) (captured stderr)), tr')
        else (Returned (captured stdout), tr')
    | NoSuchFile => (Raised FileNotFoundError, tr')
    | CtrlC => (Raised KeyboardInterrupt, tr')
    | Crashed e => (Raised (exception_of e), tr')
    end.

Definition run_command (command : list string) (capture_output : bool)
    : M (option string) :=
  try_except
    (log (MExecuting command) INFO ;;
     if capture_output then
       stdout <- subprocess_run command true true ;;
       ret (option_map Py.strip stdout)
     else
       subprocess_run command false true ;;
       ret None)
    (fun e =>
       match e with
       | CalledProcessError returncode stdout stderr =>
           Some (log (MCommandFailed command returncode) ERROR ;;
                 (if (capture_output && Py.truthy_str stdout)%bool
                  then log (MOutput (match stdout with Some s => s | None => "" end)) ERROR
                  else ret tt) ;;
                 (if (capture_output && Py.truthy_str stderr)%bool
                  then log (MError (match stderr with Some s => s | None => "" end)) ERROR
                  else ret tt) ;;
                 ret None)
       | FileNotFoundError =>
           Some (log (MCommandNotFound (hd "" command)) ERROR ;;
                 ret None)
       | _ => None
       end).

Definition validate_environment (environment : string) : M bool :=
  if negb (existsb (String.eqb environment) valid_environments) then
    log (MInvalidEnvironment environment valid_environments) ERROR ;;
    ret false
  else ret true.

Definition update_kubeconfig (environment : string) : M bool :=
  let cluster_name := (cluster_prefix ++ "-" ++ environment)%string in
  let command :=
    ["aws"; "eks"; "update-kubeconfig";
     "--region"; region;
     "--name"; cluster_name] in
  r <- run_command command false ;;
  ret (match r with Some _ => true | None => false end).

Definition get_pods_command (namespace : string) : list string :=
  ["kubectl"; "get"; "pods";
   "-n"; namespace;
   "-l"; ("app.kubernetes.io/name=" ++ app_name)%string;
   "-o"; "json"].

Definition get_pods (environment : string) (namespace : option string)
    : M (option (list Pod)) :=
  let namespace :=
    match namespace with None => environment | Some n => n end in
  let command := get_pods_command namespace in
  output <- run_command command true ;;
  match output with
  | Some (String _ _ as text) =>
      match json_loads_pods rt text with
      | PodObject data =>
          ret (match items data with Some value => value | None => Some [] end)
      | NotAnObject => raise AttributeError
      | Malformed =>
          log MFailedToParsePods ERROR ;;
          ret None
      end
  | _ => ret None
  end.

(** [tail_logs], "Get pods if no specific pod is provided": the pod to
    read, or [None] where the method returns. *)
Definition tail_logs_select_pod (environment : string)
    (pod_name : option string) (namespace : string) : M (option string) :=
  match pod_name with
  | Some pod_name => ret (Some pod_name)
  | None =>
      pods <- get_pods environment (Some namespace) ;;
      match pods with
      | None | Some [] =>
          log MNoPodsFound ERROR ;;
          ret None
      | Some [pod] =>
          let pod_name := metadata_name pod in
          log (MUsingPod pod_name) INFO ;;
          ret (Some pod_name)
      | Some pods =>
          log MMultiplePodsFound INFO ;;
          for_each
            (fun '(i, pod) =>
               let status := status_phase pod in
               log (MPodChoice i (metadata_name pod) status) INFO)
            (enumerate pods) ;;
          try_except
            (answer <- input (PSelectPod (Z.of_nat (length pods) - 1)) ;;
             choice <- int answer ;;
             if ((0 <=? choice)%Z && (choice <? Z.of_nat (length pods))%Z)%bool
             then
               match nth_error pods (Z.to_nat choice) with
               | Some pod => ret (Some (metadata_name pod))
               | None => raise IndexError
               end
             else
               log MInvalidSelection ERROR ;;
               ret None)
            (fun e =>
               match e with
               | ValueError | KeyboardInterrupt =>
                   Some (log MOperationCancelled WARNING ;;
                         ret None)
               | _ => None
               end)
      end
  end.

Definition logs_command (pod_name namespace : string) (lines : Z)
    (follow : bool) : list string :=
  ["kubectl"; "logs"; pod_name; "-n"; namespace; "--tail"; Py.str lines]
  ++ (if follow then ["-f"] else []).

(** [tail_logs], from "Build kubectl logs command" to the end. *)
Definition tail_logs_stream (pod_name namespace : string) (follow : bool)
    (lines : Z) : M unit :=
  let command := logs_command pod_name namespace lines follow in
  log (MStartingLogTail pod_name) INFO ;;
  log MPressCtrlC INFO ;;
  try_except
    (if follow then
       subprocess_run command false false ;;
       ret tt
     else
       output <- run_command command true ;;
       match output with
       | Some (String _ _ as text) => print text
       | _ => ret tt
       end)
    (fun e =>
       match e with
       | KeyboardInterrupt => Some (log MLogTailingStopped INFO)
       | _ => None
       end).

(** [tail_logs], from "Get pods if no specific pod is provided" to the
    end: all that follows the kubeconfig update. *)
Definition tail_logs_from_pods (environment : string) (follow : bool)
    (lines : Z) (pod_name : option string) (namespace : string) : M unit :=
  selected <- tail_logs_select_pod environment pod_name namespace ;;
  match selected with
  | None => ret tt
  | Some pod_name => tail_logs_stream pod_name namespace follow lines
  end.

Definition tail_logs (environment : string) (follow : bool) (lines : Z)
    (pod_name : option string) (namespace : option string) : M unit :=
  valid <- validate_environment environment ;;
  if negb valid then ret tt
  else
    let namespace :=
      match namespace with None => environment | Some n => n end in
    log (MTailingLogs app_name environment) INFO ;;
    bound <- update_kubeconfig environment ;;
    if negb bound then ret tt
    else tail_logs_from_pods environment follow lines pod_name namespace.

Definition helm_list_command (namespace : string) : list string :=
  ["helm"; "list"; "-n"; namespace; "-o"; "json"].

Definition get_helm_releases (environment : string)
    (namespace : option string) : M (option (list Release)) :=
  let namespace :=
    match namespace with None => environment | Some n => n end in
  let command := helm_list_command namespace in
  output <- run_command command true ;;
  match output with
  | Some (String _ _ as text) =>
      match loads_releases rt text with
      | Some releases => ret (Some releases)
      | None =>
          log MFailedToParseReleases ERROR ;;
          ret None
      end
  | _ => ret None
  end.

Definition helm_history_command (namespace : string) : list string :=
  ["helm"; "history"; app_name; "-n"; namespace; "-o"; "json"].

Definition get_helm_history (environment : string)
    (namespace : option string) : M (option (list RevisionRecord)) :=
  let namespace :=
    match namespace with None => environment | Some n => n end in
  let command := helm_history_command namespace in
  output <- run_command command true ;;
  match output with
  | Some (String _ _ as text) =>
      match loads_history rt text with
      | Some history => ret (Some history)
      | None =>
          log MFailedToParseHistory ERROR ;;
          ret None
      end
  | _ => ret None
  end.

Definition helm_rollback_command (target_revision : Z)
    (namespace : string) : list string :=
  ["helm"; "rollback"; app_name; Py.str target_revision; "-n"; namespace].

Definition rollout_status_command (namespace : string) : list string :=
  ["kubectl"; "rollout"; "status"; ("deployment/" ++ app_name)%string;
   "-n"; namespace; "--timeout=300s"].

(** [rollback_release], from "Perform rollback" to the end. *)
Definition rollback_release_perform (environment : string)
    (target_revision : Z) (namespace : string) : M unit :=
  let command := helm_rollback_command target_revision namespace in
  log MExecutingRollback INFO ;;
  rolled <- run_command command false ;;
  match rolled with
  | Some _ =>
      log MRollbackInitiated SUCCESS ;;
      log MWaitingForDeployment INFO ;;
      let wait_command := rollout_status_command namespace in
      ready <- run_command wait_command false ;;
      match ready with
      | Some _ =>
          log MRollbackCompleted SUCCESS ;;
          pods <- get_pods environment (Some namespace) ;;
          match pods with
          | Some (_ :: _ as pods) =>
              log MCurrentPods INFO ;;
              for_each
                (fun pod =>
                   let name := metadata_name pod in
                   let status := status_phase pod in
                   log (MPodStatus name status) INFO)
                pods
          | _ => ret tt
          end
      | None => log MRollbackMayHaveFailed WARNING
      end
  | None => log MRollbackFailed ERROR
  end.

(** [rollback_release], "Confirm rollback": [false] where the method
    returns instead of going on. *)
Definition rollback_release_confirm (confirm : bool) : M bool :=
  if negb confirm then
    try_except
      (response <- input PProceed ;;
       if negb (Py.lower response =? "y")%string then
         log MRollbackCancelled WARNING ;;
         ret false
       else ret true)
      (fun e =>
         match e with
         | KeyboardInterrupt =>
             Some (log MOperationCancelled WARNING ;;
                   ret false)
         | _ => None
         end)
  else ret true.

(** [rollback_release], from "Get current release information" to the
    end: all that follows the kubeconfig update. *)
Definition rollback_release_from_releases (environment : string)
    (revision : option Z) (confirm : bool) (namespace : string) : M unit :=
  releases <- get_helm_releases environment (Some namespace) ;;
  match releases with
  | None | Some [] => log MNoHelmReleasesFound ERROR
  | Some releases =>
      match find (fun release => (r_name release =? app_name)%string) releases with
      | None => log (MReleaseNotFound app_name) ERROR
      | Some app_release =>
          let current_revision := r_revision app_release in
          log (MCurrentRevision current_revision) INFO ;;
          history <- get_helm_history environment (Some namespace) ;;
          match history with
          | None | Some [] => log MCouldNotGetHistory ERROR
          | Some history =>
              match determine_target_revision history revision with
              | inl message => log message ERROR
              | inr target_revision =>
                  log (MTargetRevision target_revision) INFO ;;
                  match find (fun h => (h_revision h =? target_revision)%Z) history with
                  | Some target_history =>
                      log (MRollingBackTo (h_description target_history)) INFO ;;
                      log (MUpdated (h_updated target_history)) INFO
                  | None => ret tt
                  end ;;
                  proceed <- rollback_release_confirm confirm ;;
                  if proceed
                  then rollback_release_perform environment target_revision namespace
                  else ret tt
              end
          end
      end
  end.

Definition rollback_release (environment : string) (revision : option Z)
    (confirm : bool) (namespace : option string) : M unit :=
  valid <- validate_environment environment ;;
  if negb valid then ret tt
  else
    let namespace :=
      match namespace with None => environment | Some n => n end in
    log (MInitiatingRollback app_name environment) INFO ;;
    bound <- update_kubeconfig environment ;;
    if negb bound then ret tt
    else rollback_release_from_releases environment revision confirm namespace.

End DevOpsCLI.


(** ** Notions used in the statements *)

(** Descending order of keys. *)
Definition key_ge {A : Type} (key : A -> Z) (a b : A) : Prop :=
  (key b <= key a)%Z.

(** The failures that [run_command] catches: the process exits with a
    non-zero code, or the executable is not found. *)
Definition command_failed (o : Outcome) : Prop :=
  match o with
  | Exited returncode _ _ => returncode <> 0%Z
  | NoSuchFile => True
  | CtrlC | Crashed _ => False
  end.

(** What [run_command] logs after "Command failed", newest first. *)
Definition failure_output (capture_output : bool) (stdout stderr : string)
    : list Event :=
  (if (capture_output && Py.truthy_str (Some stderr))%bool
   then [ELog ERROR (MError stderr)] else [])
  ++ (if (capture_output && Py.truthy_str (Some stdout))%bool
      then [ELog ERROR (MOutput stdout)] else []).

(** A report at level SUCCESS. *)
Definition is_success_report (e : Event) : bool :=
  match e with
  | ELog SUCCESS _ => true
  | _ => false
  end.

(** [helm rollback ...] *)
Definition is_helm_rollback (command : list string) : bool :=
  match command with
  | exe :: verb :: _ => ((exe =? "helm") && (verb =? "rollback"))%string
  | _ => false
  end.

(** [aws eks update-kubeconfig ...] *)
Definition is_update_kubeconfig (command : list string) : bool :=
  match command with
  | exe :: _ :: verb :: _ =>
      ((exe =? "aws") && (verb =? "update-kubeconfig"))%string
  | _ => false
  end.

(** The rollback command was run and exited with code 0. *)
Definition is_rollback_success (e : Event) : bool :=
  match e with
  | EExec command _ (Exited returncode _ _) =>
      is_helm_rollback command && (returncode =? 0)%Z
  | _ => false
  end.

(** In a chronological sequence of events, every success report comes
    after a successful rollback command. *)
Definition success_only_after_rollback (chronological : list Event) : Prop :=
  forall pre e post,
    chronological = pre ++ e :: post ->
    is_success_report e = true ->
    exists x, In x pre /\ is_rollback_success x = true.

(** An answer to "Proceed with rollback?" other than [y] or [Y], or an
    interrupt. *)
Definition declines (answer : Stdin) : Prop :=
  match answer with
  | Line s => Py.lower s <> "y"
  | Interrupt => True
  | EndOfFile => False
  end.

(** No command of the kind [kind] was run. *)
Definition never_runs (kind : list string -> bool) (events : list Event)
    : Prop :=
  forall command capture_output outcome,
    In (EExec command capture_output outcome) events -> kind command = false.

(** The numbered list of pods that [tail_logs] shows, newest line first. *)
Definition pod_listing (pods : list Pod) : list Event :=
  rev (map (fun '(i, pod) =>
              ELog INFO (MPodChoice i (metadata_name pod) (status_phase pod)))
         (enumerate pods)).

(** ** A scripted runtime

    Every command exits with code 0 ([kubectl rollout status] with
    [rollout]); [helm list] shows the release of the application at
    revision [current]; [helm history] and [kubectl get pods] show the
    given history and pods; the keyboard gives the same answer at any
    prompt. *)

Definition digit (s : string) : option Z :=
  match s with
  | String c EmptyString =>
      let n := nat_of_ascii c in
      if ((48 <=? n) && (n <=? 57))%nat then Some (Z.of_nat (n - 48)) else None
  | _ => None
  end.

Definition scripted_spawn (rollout : Z) (t : nat) (command : list string)
    : Outcome :=
  match command with
  | "helm" :: "list" :: _ => Exited 0 "releases" ""
  | "helm" :: "history" :: _ => Exited 0 "history" ""
  | "kubectl" :: "get" :: _ => Exited 0 "pods" ""
  | "kubectl" :: "rollout" :: _ => Exited rollout "" ""
  | _ => Exited 0 "" ""
  end.

Definition scripted (answer : Stdin) (current : Z)
    (history : list RevisionRecord) (pods : list Pod) (rollout : Z)
    : Runtime := {|
  spawn := scripted_spawn rollout;
  keyboard := fun _ => answer;
  loads_releases := fun s =>
    if (s =? "releases")%string
    then Some [{| r_name := app_name; r_revision := current |}]
    else None;
  loads_history := fun s =>
    if (s =? "history")%string then Some history else None;
  json_loads_pods := fun s =>
    if (s =? "pods")%string
    then PodObject {| items := Some (Some pods) |}
    else Malformed;
  int_of_str := digit
|}.

Definition pod (name phase : string) : Pod :=
  {| metadata_name := name; status_phase := phase |}.

Definition three_pods : list Pod :=
  [pod "sample-app-a" "Running"; pod "sample-app-b" "Running";
   pod "sample-app-c" "Pending"].

Definition three_revisions : list RevisionRecord :=
  [rev_entry 1; rev_entry 2; rev_entry 3].

(** No pod matches the selector. *)
Definition empty_cluster : Runtime :=
  scripted Interrupt 3 three_revisions [] 0.

(** Three pods, and the operator types [1] at the prompt. *)
Definition operator_picks_1 : Runtime :=
  scripted (Line "1") 3 three_revisions three_pods 0.

(** The operator types [n] at the prompt. *)
Definition operator_says_no : Runtime :=
  scripted (Line "n") 3 three_revisions three_pods 0.

(** Every command succeeds but the rollout does not converge. *)
Definition rollout_times_out : Runtime :=
  scripted Interrupt 3 three_revisions three_pods 1.

(** Every command succeeds. *)
Definition all_succeeds : Runtime :=
  scripted Interrupt 3 three_revisions three_pods 0.

(** Every command succeeds and the pod list document is an object whose
    [items] field is [null]. *)
Definition null_items : Runtime := {|
  spawn := scripted_spawn 0;
  keyboard := fun _ => Interrupt;
  loads_releases := fun _ => None;
  loads_history := fun _ => None;
  json_loads_pods := fun s =>
    if (s =? "pods")%string
    then PodObject {| items := Some None |}
    else Malformed;
  int_of_str := digit
|}.

(** ** Further notions used in the statements *)

From Stdlib Require Import DecimalZ.

(** A log line at level ERROR. *)
Definition is_error_log (e : Event) : bool :=
  match e with
  | ELog ERROR _ => true
  | _ => false
  end.

(** A prompt was shown. *)
Definition is_prompt (e : Event) : bool :=
  match e with
  | EInput _ _ => true
  | _ => false
  end.

(** [helm list ...] *)
Definition is_helm_list (command : list string) : bool :=
  match command with
  | exe :: verb :: _ => ((exe =? "helm") && (verb =? "list"))%string
  | _ => false
  end.

(** [helm history ...] *)
Definition is_helm_history (command : list string) : bool :=
  match command with
  | exe :: verb :: _ => ((exe =? "helm") && (verb =? "history"))%string
  | _ => false
  end.

(** How many commands of the kind [kind] were run. *)
Definition runs (kind : list string -> bool) (events : list Event) : nat :=
  length (filter (fun e => match e with
                           | EExec command _ _ => kind command
                           | _ => false
                           end) events).

(** The command of [update_kubeconfig]. *)
Definition update_kubeconfig_command (environment : string) : list string :=
  ["aws"; "eks"; "update-kubeconfig";
   "--region"; region;
   "--name"; (cluster_prefix ++ "-" ++ environment)%string].

(** The only things a run does that stops at the kubeconfig update: log
    lines, and the kubeconfig command of the environment. *)
Definition only_updates_kubeconfig (environment : string) (e : Event) : Prop :=
  match e with
  | ELog _ _ => True
  | EExec command capture_output _ =>
      command = update_kubeconfig_command environment /\ capture_output = false
  | EInput _ _ | EPrint _ => False
  end.

(** The exception with which an outcome leaves [run_command]: the
    interrupt, and what [subprocess.run] raises beyond the two classes
    that [run_command] catches. *)
Definition uncaught (outcome : Outcome) : option Exn :=
  match outcome with
  | Exited _ _ _ | NoSuchFile => None
  | CtrlC => Some KeyboardInterrupt
  | Crashed e => Some (exception_of e)
  end.

(** A process raised an exception other than an interrupt that
    [run_command] does not catch. *)
Definition crashed (e : Event) : bool :=
  match e with
  | EExec _ _ (Crashed _) => true
  | _ => false
  end.

(** ** The entry point *)

(** [class Colors] *)
Module Colors.
Definition ESC : string := String (ascii_of_nat 27) EmptyString.
Definition RED : string := (ESC ++ "[91m")%string.
Definition GREEN : string := (ESC ++ "[92m")%string.
Definition YELLOW : string := (ESC ++ "[93m")%string.
Definition BLUE : string := (ESC ++ "[94m")%string.
Definition MAGENTA : string := (ESC ++ "[95m")%string.
Definition CYAN : string := (ESC ++ "[96m")%string.
Definition WHITE : string := (ESC ++ "[97m")%string.
Definition RESET : string := (ESC ++ "[0m")%string.
Definition BOLD : string := (ESC ++ "[1m")%string.
End Colors.

(** What [parser.parse_args()] returns: no subcommand, [logs] or
    [rollback] with their options. *)
Inductive Args :=
| NoCommand
| LogsCommand (environment : string) (follow : bool) (lines : Z)
    (pod namespace : option string)
| RollbackCommand (environment : string) (revision : option Z)
    (confirm : bool) (namespace : option string).

Definition newline : string := String (ascii_of_nat 10) EmptyString.

Definition interrupted_message : string :=
  (newline ++ Colors.YELLOW ++ "Operation interrupted" ++ Colors.RESET)%string.

Section Main.

Variable rt : Runtime.

(** The text of [parser.print_help()] and [str(e)] of an exception. *)
Variable help : string.
Variable str_exception : Exn -> string.

(** [main], from the parsed arguments on; the value is the exit status of
    the process, 1 for [sys.exit(1)]. *)
Definition main (args : Args) : M Z :=
  match args with
  | NoCommand =>
      print help ;;
      ret 0%Z
  | _ =>
      try_except
        (match args with
         | LogsCommand environment follow lines pod namespace =>
             tail_logs rt environment follow lines pod namespace
         | RollbackCommand environment revision confirm namespace =>
             rollback_release rt environment revision confirm namespace
         | NoCommand => ret tt
         end ;;
         ret 0%Z)
        (fun e =>
           match e with
           | KeyboardInterrupt =>
               Some (print interrupted_message ;;
                     ret 0%Z)
           | _ =>
               Some (print (Colors.RED ++ "Unexpected error: "
                            ++ str_exception e ++ Colors.RESET)%string ;;
                     ret 1%Z)
           end)
  end.

End Main.

(** ** More scripted runtimes *)

(** No program may be executed: every [subprocess.run] raises
    [PermissionError]. *)
Definition not_executable : Runtime := {|
  spawn := fun _ _ => Crashed PermissionDenied;
  keyboard := fun _ => Interrupt;
  loads_releases := fun _ => None;
  loads_history := fun _ => None;
  json_loads_pods := fun _ => Malformed;
  int_of_str := digit
|}.

(** The input is closed when the prompt is shown. *)
Definition input_closed : Runtime :=
  scripted EndOfFile 3 three_revisions three_pods 0.

(** The pod list document has no [items] field. *)
Definition no_items_field : Runtime := {|
  spawn := scripted_spawn 0;
  keyboard := fun _ => Interrupt;
  loads_releases := fun _ => None;
  loads_history := fun _ => None;
  json_loads_pods := fun s =>
    if (s =? "pods")%string then PodObject {| items := None |} else Malformed;
  int_of_str := digit
|}.

(** Every command exits with code 0 and prints white space only. *)
Definition blank_output : Runtime := {|
  spawn := fun _ _ => Exited 0 "  " "";
  keyboard := fun _ => Interrupt;
  loads_releases := fun _ => None;
  loads_history := fun _ => None;
  json_loads_pods := fun _ => Malformed;
  int_of_str := digit
|}.

(** [kubectl logs ...] *)
Definition is_kubectl_logs (command : list string) : bool :=
  match command with
  | exe :: verb :: _ => ((exe =? "kubectl") && (verb =? "logs"))%string
  | _ => false
  end.

(** The release list that [helm list] shows has entries, none of them
    under the name of the application. *)
Definition lists_other_releases (releases : list Release) : Prop :=
  releases <> [] /\
  forall release, In release releases -> r_name release <> app_name.

(** Another release only is installed in the namespace. *)
Definition other_release_only : Runtime := {|
  spawn := scripted_spawn 0;
  keyboard := fun _ => Interrupt;
  loads_releases := fun s =>
    if (s =? "releases")%string
    then Some [{| r_name := "ingress"; r_revision := 4 |}]
    else None;
  loads_history := fun _ => None;
  json_loads_pods := fun _ => Malformed;
  int_of_str := digit
|}.

(** The pod whose logs are read: the one named by the caller, or one of
    those that discovery returned. *)
Definition chosen_pod (rt : Runtime) (environment : string)
    (pod_name : option string) (ns : string) (tr : Trace) (p : string) : Prop :=
  match pod_name with
  | Some named => p = named
  | None =>
      exists pods,
        result_of (get_pods rt environment (Some ns)) tr = Returned (Some pods)
        /\ In p (map metadata_name pods)
  end.

(** * Properties *)

(** ** The stable descending sort *)

Section SortedReverse.
Context {A : Type} (key : A -> Z).

Lemma insert_reverse_perm (x : A) (l : list A) :
  Permutation (Py.insert_reverse key x l) (x :: l).
Proof.
  induction l as [|y l IH]; simpl.
  - apply Permutation_refl.
  - destruct (key y <=? key x)%Z.
    + apply Permutation_refl.
    + eapply perm_trans; [apply perm_skip, IH | apply perm_swap].
Qed.

Lemma sorted_reverse_perm (l : list A) :
  Permutation (Py.sorted_reverse key l) l.
Proof.
  induction l as [|x l IH]; simpl.
  - constructor.
  - eapply perm_trans; [apply insert_reverse_perm | now apply perm_skip].
Qed.

Lemma sorted_reverse_length (l : list A) :
  length (Py.sorted_reverse key l) = length l.
Proof. apply Permutation_length, sorted_reverse_perm. Qed.

Lemma insert_reverse_sorted (x : A) (l : list A) :
  StronglySorted (key_ge key) l ->
  StronglySorted (key_ge key) (Py.insert_reverse key x l).
Proof.
  induction 1 as [|y l Hs IH Hy]; simpl.
  - repeat constructor.
  - destruct (key y <=? key x)%Z eqn:E.
    + apply Z.leb_le in E.
      constructor; [now constructor|].
      constructor; [exact E|].
      eapply Forall_impl; [|exact Hy].
      unfold key_ge; intros; lia.
    + apply Z.leb_gt in E.
      constructor; [exact IH|].
      eapply Permutation_Forall;
        [apply Permutation_sym, insert_reverse_perm|].
      constructor; [unfold key_ge; lia | exact Hy].
Qed.

Lemma sorted_reverse_sorted (l : list A) :
  StronglySorted (key_ge key) (Py.sorted_reverse key l).
Proof.
  induction l; simpl; [constructor | now apply insert_reverse_sorted].
Qed.

(** With two entries or more the sorted list has an entry at index 1,
    below the first one and above all the others. *)
Lemma sorted_reverse_second (l : list A) :
  (2 <= length l)%nat ->
  exists top second rest,
    Py.sorted_reverse key l = top :: second :: rest /\
    Permutation l (top :: second :: rest) /\
    (key second <= key top)%Z /\
    Forall (fun a => (key a <= key second)%Z) rest.
Proof.
  intros Hlen.
  pose proof (sorted_reverse_length l) as Hl.
  pose proof (sorted_reverse_perm l) as Hp.
  pose proof (sorted_reverse_sorted l) as Hs.
  destruct (Py.sorted_reverse key l) as [|top [|second rest]];
    simpl in Hl; try lia.
  exists top, second, rest.
  apply StronglySorted_inv in Hs as [Hs Htop].
  apply StronglySorted_inv in Hs as [_ Hsecond].
  repeat split.
  - now apply Permutation_sym.
  - now inversion Htop.
  - exact Hsecond.
Qed.
End SortedReverse.

Lemma sorted_keys_descending {A} (key : A -> Z) (l : list A) :
  StronglySorted (key_ge key) l ->
  StronglySorted (fun a b => (b <= a)%Z) (map key l).
Proof.
  induction 1 as [|a l Hs IH Ha]; cbn; constructor; trivial.
  apply Forall_map. exact Ha.
Qed.

(** ** Revision resolution *)

Lemma distinct_revisions_length (H : list RevisionRecord) :
  (length (distinct_revisions H) <= length H)%nat.
Proof.
  unfold distinct_revisions.
  rewrite <- (length_map h_revision H).
  apply NoDup_incl_length; [apply NoDup_nodup|].
  intros x Hx. now apply nodup_In in Hx.
Qed.

Lemma shares_revision_length (H : list RevisionRecord) :
  shares_revision H = true -> (2 <= length H)%nat.
Proof.
  destruct H as [|h [|k rest]]; simpl; try discriminate; lia.
Qed.

(** Without an explicit revision, a history of two entries or more always
    resolves, to the revision at index 1 of the sorted history. *)
Lemma determine_previous (H : list RevisionRecord) :
  (2 <= length H)%nat ->
  exists top second rest,
    Py.sorted_reverse h_revision H = top :: second :: rest /\
    determine_target_revision H None = inr (h_revision second) /\
    Permutation H (top :: second :: rest) /\
    (h_revision second <= h_revision top)%Z /\
    Forall (fun h => (h_revision h <= h_revision second)%Z) rest.
Proof.
  intros Hlen.
  destruct (sorted_reverse_second h_revision H Hlen)
    as (top & second & rest & Hs & Hp & Hle & Hrest).
  exists top, second, rest.
  repeat split; trivial.
  unfold determine_target_revision.
  replace (length H <? 2)%nat with false
    by (symmetry; apply Nat.ltb_ge; exact Hlen).
  simpl. now rewrite Hs.
Qed.

Lemma determine_short_history (H : list RevisionRecord) :
  (length H < 2)%nat ->
  determine_target_revision H None = inl MNoPreviousRevisionsAvailable.
Proof.
  intros Hlen. unfold determine_target_revision.
  replace (length H <? 2)%nat with true
    by (symmetry; apply Nat.ltb_lt; exact Hlen).
  reflexivity.
Qed.

Lemma contains_In (x : Z) (xs : list Z) :
  Py.contains x xs = true <-> In x xs.
Proof.
  unfold Py.contains. rewrite existsb_exists. split.
  - intros (y & Hy & E). apply Z.eqb_eq in E. now subst.
  - intros Hx. exists x. split; [exact Hx | apply Z.eqb_refl].
Qed.

Lemma determine_explicit (H : list RevisionRecord) (r : Z) :
  determine_target_revision H (Some r) =
    if Py.contains r (map h_revision H) then inr r
    else inl (MRevisionNotFound r (map h_revision H)).
Proof.
  unfold determine_target_revision.
  rewrite andb_false_r.
  now destruct (Py.contains r (map h_revision H)).
Qed.

(** With pairwise distinct revision numbers, the invariant of the data
    model, the order of the sorted history is strict. *)
Lemma distinct_revisions_strict (H : list RevisionRecord)
    (top second : RevisionRecord) (rest : list RevisionRecord) :
  Permutation H (top :: second :: rest) ->
  NoDup (map h_revision H) ->
  (h_revision second <= h_revision top)%Z ->
  Forall (fun h => (h_revision h <= h_revision second)%Z) rest ->
  (h_revision second < h_revision top)%Z /\
  Forall (fun h => (h_revision h < h_revision second)%Z) rest.
Proof.
  intros Hp Hnd Hle Hrest.
  assert (Hnd' : NoDup (map h_revision (top :: second :: rest)))
    by (eapply Permutation_NoDup; [apply Permutation_map, Hp | exact Hnd]).
  simpl in Hnd'. inversion Hnd' as [|? ? Htop Hnd2]; subst.
  inversion Hnd2 as [|? ? Hsecond _]; subst.
  split.
  - assert (h_revision top <> h_revision second)
      by (intros E; apply Htop; left; now symmetry).
    lia.
  - rewrite Forall_forall in *. intros h Hh.
    specialize (Hrest h Hh).
    assert (h_revision h <> h_revision second)
      by (intros E; apply Hsecond; rewrite <- E; now apply in_map).
    lia.
Qed.

(** The entry at index 1 of the sorted history carries the second-highest
    revision number exactly when the highest one occurs once. *)
Lemma second_highest_at_index_1 (H : list RevisionRecord)
    (top second : RevisionRecord) (rest : list RevisionRecord) :
  Py.sorted_reverse h_revision H = top :: second :: rest ->
  second_highest_revision H = Some (h_revision second)
  <-> (h_revision second < h_revision top)%Z.
Proof.
  intros Hs.
  pose proof (sorted_reverse_perm h_revision H) as Hp. rewrite Hs in Hp.
  pose proof (sorted_keys_descending h_revision _
                (sorted_reverse_sorted h_revision H)) as Hk.
  rewrite Hs in Hk. cbn in Hk.
  apply StronglySorted_inv in Hk as [Hk Htop].
  apply StronglySorted_inv in Hk as [_ Hsecond].
  apply Forall_cons_iff in Htop as [Hle _].
  rewrite Forall_forall in Hsecond.
  assert (Hin : forall x,
             In x (distinct_revisions H)
             <-> x = h_revision top \/ x = h_revision second
                 \/ In x (map h_revision rest)).
  { intros x. unfold distinct_revisions. rewrite nodup_In. split.
    - intros Hx.
      apply (Permutation_in x
               (Permutation_map h_revision (Permutation_sym Hp))) in Hx.
      cbn in Hx. destruct Hx as [Hx|[Hx|Hx]]; auto.
    - intros Hx.
      apply (Permutation_in x (Permutation_map h_revision Hp)).
      cbn. destruct Hx as [Hx|[Hx|Hx]]; auto. }
  unfold second_highest_revision.
  pose proof (sorted_reverse_perm (fun z : Z => z) (distinct_revisions H))
    as HpD.
  pose proof (sorted_keys_descending (fun z : Z => z) _
                (sorted_reverse_sorted (fun z : Z => z)
                   (distinct_revisions H))) as HsD.
  rewrite map_id in HsD.
  assert (Hnd : NoDup (Py.sorted_reverse (fun z : Z => z)
                         (distinct_revisions H))).
  { eapply Permutation_NoDup; [apply Permutation_sym, HpD|].
    apply NoDup_nodup. }
  assert (HinD : forall x,
             In x (Py.sorted_reverse (fun z : Z => z) (distinct_revisions H))
             <-> x = h_revision top \/ x = h_revision second
                 \/ In x (map h_revision rest)).
  { intros x. rewrite <- Hin. split; apply Permutation_in;
      [exact HpD | now apply Permutation_sym]. }
  clear Hin HpD Hp Hs.
  destruct (Py.sorted_reverse (fun z : Z => z) (distinct_revisions H))
    as [|d0 D].
  { exfalso. apply (proj2 (HinD (h_revision top))). now left. }
  apply StronglySorted_inv in HsD as [HsD Hd0].
  rewrite Forall_forall in Hd0.
  apply NoDup_cons_iff in Hnd as [Hd0D HndD].
  assert (Ed0 : d0 = h_revision top).
  { assert (d0 <= h_revision top)%Z.
    { destruct (proj1 (HinD d0) (or_introl eq_refl)) as [->|[->|Hx]];
        [lia | lia | specialize (Hsecond _ Hx); lia]. }
    assert (h_revision top <= d0)%Z.
    { destruct (proj2 (HinD (h_revision top)) (or_introl eq_refl)) as [->|Hx];
        [lia | now apply Hd0]. }
    lia. }
  subst d0. split.
  - destruct D as [|d1 D]; [discriminate|]. cbn. intros Heq.
    inversion Heq; subst d1.
    assert (h_revision second <> h_revision top).
    { intros E. apply Hd0D. rewrite <- E. now left. }
    lia.
  - intros Hlt.
    assert (HsD0 : In (h_revision second) D).
    { destruct (proj2 (HinD (h_revision second)) (or_intror (or_introl eq_refl)))
        as [E|Hx]; [lia | exact Hx]. }
    destruct D as [|d1 D]; [destruct HsD0|]. cbn. f_equal.
    apply StronglySorted_inv in HsD as [_ Hd1].
    rewrite Forall_forall in Hd1.
    assert (h_revision second <= d1)%Z.
    { destruct HsD0 as [->|Hx]; [lia | now apply Hd1]. }
    assert (d1 <= h_revision second)%Z.
    { destruct (proj1 (HinD d1) (or_intror (or_introl eq_refl)))
        as [E|[E|Hx]].
      - exfalso. apply Hd0D. rewrite <- E. now left.
      - lia.
      - now apply Hsecond. }
    lia.
Qed.

(** C1 as stated fails: the history of revisions 3, 3 and 2 holds 2
    distinct revision numbers, of which the second-highest is 2; the step
    selects 3, the highest. *)
Lemma repeated_top_revision_is_selected :
  (2 <= length (distinct_revisions [rev_entry 3; rev_entry 3; rev_entry 2]))%nat
  /\ second_highest_revision [rev_entry 3; rev_entry 3; rev_entry 2]
       = Some 2%Z
  /\ determine_target_revision [rev_entry 3; rev_entry 3; rev_entry 2] None
       = inr 3%Z
  /\ ~ (forall H : list RevisionRecord,
          (2 <= length (distinct_revisions H))%nat ->
          exists target,
            determine_target_revision H None = inr target
            /\ second_highest_revision H = Some target).
Proof.
  split; [vm_compute; lia|].
  split; [reflexivity|].
  split; [reflexivity|].
  intros Hall.
  destruct (Hall [rev_entry 3; rev_entry 3; rev_entry 2])
    as (target & Ht & Hs).
  - vm_compute. lia.
  - vm_compute in Ht, Hs. congruence.
Qed.

(** C1, amended. For every history of at least 2 entries and no explicit
    target, the resolution step of [rollback_release] selects the revision
    of the entry at index 1 of the history sorted by revision descending,
    which is not above the first entry and not below any other.  It is the
    second-highest revision number of the history exactly when the highest
    one occurs once, as it does when the revision numbers are pairwise
    distinct; otherwise it is the highest.  It need not be the highest
    revision minus one. *)
Theorem previous_revision_is_sorted_index_1 :
  (forall H : list RevisionRecord,
      (2 <= length H)%nat ->
      exists top second rest,
        Py.sorted_reverse h_revision H = top :: second :: rest /\
        determine_target_revision H None = inr (h_revision second) /\
        Permutation H (top :: second :: rest) /\
        (h_revision second <= h_revision top)%Z /\
        Forall (fun h => (h_revision h <= h_revision second)%Z) rest /\
        (second_highest_revision H = Some (h_revision second)
         <-> (h_revision second < h_revision top)%Z) /\
        (NoDup (map h_revision H) ->
         second_highest_revision H = Some (h_revision second) /\
         (h_revision second < h_revision top)%Z /\
         Forall (fun h => (h_revision h < h_revision second)%Z) rest))
  /\
  (exists (H : list RevisionRecord) (current : Z),
      (2 <= length (distinct_revisions H))%nat /\
      Forall (fun h => (h_revision h <= current)%Z) H /\
      In current (map h_revision H) /\
      determine_target_revision H None = inr 2%Z /\
      2%Z <> (current - 1)%Z).
Proof.
  split.
  - intros H Hlen.
    destruct (determine_previous H Hlen)
      as (top & second & rest & Hs & Ht & Hp & Hle & Hr).
    exists top, second, rest.
    do 5 (split; [assumption|]).
    pose proof (second_highest_at_index_1 H top second rest Hs) as Hiff.
    split; [exact Hiff|].
    intros Hnd.
    destruct (distinct_revisions_strict H top second rest Hp Hnd Hle Hr)
      as [Hlt Hrest].
    split; [now apply Hiff | now split].
  - exists [rev_entry 1; rev_entry 5; rev_entry 2], 5%Z.
    repeat split.
    + vm_compute. lia.
    + repeat constructor; vm_compute; discriminate.
    + simpl. tauto.
    + discriminate.
Qed.

Lemma previous_revision_is_sorted_index_1_witness :
  exists top second rest,
    Py.sorted_reverse h_revision [rev_entry 3; rev_entry 2; rev_entry 1]
      = top :: second :: rest /\
    determine_target_revision [rev_entry 3; rev_entry 2; rev_entry 1] None
      = inr (h_revision second) /\
    Permutation [rev_entry 3; rev_entry 2; rev_entry 1] (top :: second :: rest) /\
    (h_revision second <= h_revision top)%Z /\
    Forall (fun h => (h_revision h <= h_revision second)%Z) rest /\
    (second_highest_revision [rev_entry 3; rev_entry 2; rev_entry 1]
       = Some (h_revision second)
     <-> (h_revision second < h_revision top)%Z) /\
    (NoDup (map h_revision [rev_entry 3; rev_entry 2; rev_entry 1]) ->
     second_highest_revision [rev_entry 3; rev_entry 2; rev_entry 1]
       = Some (h_revision second) /\
     (h_revision second < h_revision top)%Z /\
     Forall (fun h => (h_revision h < h_revision second)%Z) rest).
Proof.
  apply (proj1 previous_revision_is_sorted_index_1
           [rev_entry 3; rev_entry 2; rev_entry 1]).
  simpl. lia.
Defined.

(** C2. An explicit target [r] is accepted exactly when it is one of the
    revision numbers of the history; a rejection carries the revision
    numbers of the history; and nothing compares [r] with the current
    revision, so a later revision is accepted as well. *)
Theorem explicit_revision_accepted_iff_known
    (H : list RevisionRecord) (r : Z) :
  (determine_target_revision H (Some r) = inr r
     <-> In r (map h_revision H))
  /\ (~ In r (map h_revision H) ->
      determine_target_revision H (Some r)
        = inl (MRevisionNotFound r (map h_revision H)))
  /\ (forall x, In x (map h_revision H)
        <-> exists h, In h H /\ h_revision h = x)
  /\ (forall current : Z,
        (current < r)%Z -> In r (map h_revision H) ->
        determine_target_revision H (Some r) = inr r).
Proof.
  rewrite determine_explicit.
  pose proof (contains_In r (map h_revision H)) as Hc.
  destruct (Py.contains r (map h_revision H)).
  - assert (In r (map h_revision H)) by now apply Hc.
    repeat split; trivial; try tauto.
    + intros Hx. apply in_map_iff in Hx as (h & E & Hh). now exists h.
    + intros (h & Hh & E). apply in_map_iff. now exists h.
  - assert (~ In r (map h_revision H)) by (intros Hin; apply Hc in Hin; discriminate).
    repeat split; trivial; try tauto; try discriminate.
    + intros Hx. apply in_map_iff in Hx as (h & E & Hh). now exists h.
    + intros (h & Hh & E). apply in_map_iff. now exists h.
Qed.

Lemma explicit_revision_accepted_iff_known_witness :
  determine_target_revision [rev_entry 1; rev_entry 2] (Some 5%Z)
    = inl (MRevisionNotFound 5 [1%Z; 2%Z])
  /\ determine_target_revision [rev_entry 1; rev_entry 2; rev_entry 3] (Some 3%Z)
    = inr 3%Z.
Proof.
  split.
  - apply (proj1 (proj2 (explicit_revision_accepted_iff_known
                           [rev_entry 1; rev_entry 2] 5))).
    simpl. intros [E | [E | []]]; discriminate.
  - apply (proj2 (proj2 (proj2 (explicit_revision_accepted_iff_known
                           [rev_entry 1; rev_entry 2; rev_entry 3] 3))) 2%Z).
    + lia.
    + simpl. tauto.
Defined.

(** C3 as stated fails: two entries that share revision 5 hold fewer than 2
    distinct revision numbers, yet the step selects 5. *)
Lemma shared_revision_is_selected :
  (length (distinct_revisions [rev_entry 5; rev_entry 5]) < 2)%nat
  /\ determine_target_revision [rev_entry 5; rev_entry 5] None = inr 5%Z
  /\ ~ (forall H : list RevisionRecord,
          (length (distinct_revisions H) < 2)%nat ->
          determine_target_revision H None = inl MNoPreviousRevisionsAvailable).
Proof.
  assert (Hd : (length (distinct_revisions [rev_entry 5; rev_entry 5]) < 2)%nat)
    by (vm_compute; lia).
  repeat split; trivial.
  intros Hall. specialize (Hall _ Hd). discriminate.
Qed.

(** C3, amended. With no explicit target, a history of fewer than 2
    entries fails with the no-prior-revision error; the entries are
    counted, not their distinct revision numbers. *)
Theorem fewer_than_two_entries_no_previous (H : list RevisionRecord) :
  (length H < 2)%nat ->
  determine_target_revision H None = inl MNoPreviousRevisionsAvailable.
Proof. apply determine_short_history. Qed.

Lemma fewer_than_two_entries_no_previous_witness :
  determine_target_revision [rev_entry 1] None
    = inl MNoPreviousRevisionsAvailable.
Proof.
  apply (fewer_than_two_entries_no_previous [rev_entry 1]).
  simpl. lia.
Defined.

(** C4 as stated fails: revision 3 occurs twice and the step selects it
    without any report. *)
Lemma duplicate_revision_not_reported :
  shares_revision [rev_entry 3; rev_entry 3; rev_entry 2] = true
  /\ determine_target_revision [rev_entry 3; rev_entry 3; rev_entry 2] None
       = inr 3%Z
  /\ ~ (forall H : list RevisionRecord,
          shares_revision H = true ->
          exists message, determine_target_revision H None = inl message).
Proof.
  repeat split; trivial.
  intros Hall.
  destruct (Hall [rev_entry 3; rev_entry 3; rev_entry 2] eq_refl) as [m Hm].
  discriminate.
Qed.

(** C4, amended. A history in which two entries share a revision number is
    not checked for it: with no explicit target the step resolves as for
    any history of two entries or more, to the revision at index 1 of the
    sorted history. *)
Theorem duplicate_revision_resolves (H : list RevisionRecord) :
  shares_revision H = true ->
  exists top second rest,
    Py.sorted_reverse h_revision H = top :: second :: rest /\
    determine_target_revision H None = inr (h_revision second).
Proof.
  intros Hdup.
  destruct (determine_previous H (shares_revision_length H Hdup))
    as (top & second & rest & Hs & Hd & _).
  now exists top, second, rest.
Qed.

Lemma duplicate_revision_resolves_witness :
  exists top second rest,
    Py.sorted_reverse h_revision [rev_entry 3; rev_entry 3; rev_entry 2]
      = top :: second :: rest /\
    determine_target_revision [rev_entry 3; rev_entry 3; rev_entry 2] None
      = inr (h_revision second).
Proof.
  apply (duplicate_revision_resolves [rev_entry 3; rev_entry 3; rev_entry 2]).
  reflexivity.
Defined.

(** ** Running the methods *)

Ltac unfold_methods :=
  unfold rollback_release, rollback_release_from_releases,
    rollback_release_confirm, rollback_release_perform,
    tail_logs, tail_logs_from_pods, tail_logs_stream, tail_logs_select_pod,
    get_helm_history, get_helm_releases, get_pods,
    update_kubeconfig, validate_environment,
    subprocess_run, int, input, log, print,
    try_except, bind, ret, raise, emit in *.

Lemma run_command_eq (rt : Runtime) (command : list string)
    (capture_output : bool) (tr : Trace) :
  run_command rt command capture_output tr =
    let outcome := spawn rt (S (length tr)) command in
    let tr1 := EExec command capture_output outcome
               :: ELog INFO (MExecuting command) :: tr in
    match outcome with
    | Exited returncode stdout stderr =>
        if (returncode =? 0)%Z
        then (Returned (if capture_output then Some (Py.strip stdout) else None),
              tr1)
        else (Returned None,
              failure_output capture_output stdout stderr
              ++ ELog ERROR (MCommandFailed command returncode) :: tr1)
    | NoSuchFile =>
        (Returned None, ELog ERROR (MCommandNotFound (hd "" command)) :: tr1)
    | CtrlC => (Raised KeyboardInterrupt, tr1)
    | Crashed e => (Raised (exception_of e), tr1)
    end.
Proof.
  unfold run_command, failure_output. unfold_methods.
  destruct capture_output; cbn -[Py.strip];
    destruct (spawn rt (S (length tr)) command) as [code out err| | |e];
    cbn -[Py.strip]; trivial;
    try (destruct e; reflexivity);
    destruct (code =? 0)%Z; cbn -[Py.strip]; trivial;
    destruct out, err; reflexivity.
Qed.

(** Without captured output [run_command] returns [None] whatever the
    process does: success cannot be told from failure. *)
Lemma run_command_uncaptured_none (rt : Runtime) (command : list string)
    (tr : Trace) (r : option string) :
  result_of (run_command rt command false) tr = Returned r -> r = None.
Proof.
  unfold result_of. rewrite run_command_eq. cbv zeta.
  destruct (spawn rt _ _) as [code out err| | |crash]; cbn;
    [destruct (code =? 0)%Z; cbn | | |]; congruence.
Qed.

(** Hence the kubeconfig update is reported as failed in every run. *)
Lemma update_kubeconfig_never_true (rt : Runtime) (environment : string)
    (tr : Trace) :
  result_of (update_kubeconfig rt environment) tr <> Returned true.
Proof.
  unfold result_of, update_kubeconfig, bind, ret.
  rewrite run_command_eq. cbv zeta.
  destruct (spawn rt _ _) as [code out err| | |crash]; cbn;
    [destruct (code =? 0)%Z; cbn | | |]; congruence.
Qed.

Lemma emitted_eq {A} (m : M A) (tr : Trace) (r : Result A)
    (events : list Event) :
  m tr = (r, events ++ tr) -> emitted m tr = events.
Proof.
  intros E. unfold emitted. rewrite E. cbn.
  rewrite length_app, Nat.add_sub.
  rewrite firstn_app, Nat.sub_diag, firstn_all. cbn. apply app_nil_r.
Qed.

Lemma prefix_nil (tr : Trace) : tr = [] ++ tr.
Proof. reflexivity. Qed.

Lemma prefix_cons (e : Event) (l events tr : Trace) :
  l = events ++ tr -> e :: l = (e :: events) ++ tr.
Proof. intros ->. reflexivity. Qed.

Lemma prefix_app (a l events tr : Trace) :
  l = events ++ tr -> a ++ l = (a ++ events) ++ tr.
Proof. intros ->. apply app_assoc. Qed.

Ltac prefix :=
  repeat first [ eapply prefix_cons | eapply prefix_app | apply prefix_nil ].

(** Case analysis on the next thing the run depends on. *)
Ltac step :=
  first
  [ rewrite run_command_eq; cbv zeta
  | match goal with
    | |- context [match spawn ?rt ?t ?c with _ => _ end] =>
        destruct (spawn rt t c) as [? ? ?| | |?] eqn:?
    | |- context [match exception_of ?e with _ => _ end] =>
        destruct e
    | |- context [match keyboard ?rt ?t with _ => _ end] =>
        destruct (keyboard rt t) eqn:?
    | |- context [match json_loads_pods ?rt ?t with _ => _ end] =>
        destruct (json_loads_pods rt t) eqn:?
    | |- context [match determine_target_revision ?h ?r with _ => _ end] =>
        destruct (determine_target_revision h r) eqn:?
    | |- context [if (?c =? 0)%Z then _ else _] =>
        destruct (c =? 0)%Z eqn:?
    | |- context [match ?s with EmptyString => _ | String _ _ => _ end] =>
        destruct s eqn:?
    | |- context [match ?o with Some _ => _ | None => _ end] =>
        destruct o eqn:?
    | |- context [if ?b then _ else _] =>
        destruct b eqn:?
    | |- context [match ?l with [] => _ | _ :: _ => _ end] =>
        destruct l eqn:?
    end ];
  cbn -[Py.strip Py.lower Py.str String.eqb String.append
        determine_target_revision existsb] in *.

Ltac run :=
  unfold_methods;
  cbn -[Py.strip Py.lower Py.str String.eqb String.append
        determine_target_revision existsb] in *;
  repeat step.

Lemma pair_prefix {A} (r : Result A) (l events tr : Trace) :
  l = events ++ tr -> (r, l) = (r, events ++ tr).
Proof. intros ->. reflexivity. Qed.

(** The run is over: name the events it added. *)
Ltac done_with :=
  do 2 eexists; split; [apply pair_prefix; prefix|].

Ltac no_such_command :=
  let Hin := fresh "Hin" in
  intros ? ? ? Hin; cbn in Hin;
  repeat (destruct Hin as [Hin|Hin];
          [try discriminate; inversion Hin; subst; reflexivity|]);
  try contradiction.


(** The whole of [rollback_release]: it never goes past the kubeconfig
    update. *)
Lemma rollback_release_stops_after_kubeconfig
    (rt : Runtime) (environment : string) (revision : option Z)
    (confirm : bool) (namespace : option string) (tr : Trace) :
  never_runs is_helm_rollback
    (emitted (rollback_release rt environment revision confirm namespace) tr)
  /\ Forall (fun e => is_success_report e = false)
       (emitted (rollback_release rt environment revision confirm namespace) tr).
Proof.
  assert (exists r events,
    rollback_release rt environment revision confirm namespace tr
      = (r, events ++ tr) /\
    never_runs is_helm_rollback events /\
    Forall (fun e => is_success_report e = false) events)
    as (r & events & E & H1 & H2).
  { run; done_with; (split; [no_such_command | repeat constructor]). }
  rewrite (emitted_eq _ _ _ _ E). now split.
Qed.

(** ** Pod discovery *)

(** What [get_pods] makes of each outcome of [kubectl get pods]. *)
Lemma get_pods_eq
    (rt : Runtime) (environment : string) (namespace : option string)
    (tr : Trace) :
  let ns := match namespace with None => environment | Some n => n end in
  let outcome := spawn rt (S (length tr)) (get_pods_command ns) in
  result_of (get_pods rt environment namespace) tr =
    match outcome with
    | Exited returncode stdout _ =>
        if (returncode =? 0)%Z then
          match Py.strip stdout with
          | EmptyString => Returned None
          | text =>
              match json_loads_pods rt text with
              | PodObject data =>
                  Returned (match items data with
                            | Some value => value
                            | None => Some []
                            end)
              | NotAnObject => Raised AttributeError
              | Malformed => Returned None
              end
          end
        else Returned None
    | NoSuchFile => Returned None
    | CtrlC => Raised KeyboardInterrupt
    | Crashed e => Raised (exception_of e)
    end.
Proof.
  intros ns outcome.
  unfold result_of, get_pods, bind. fold ns.
  rewrite run_command_eq. cbv zeta. fold outcome.
  destruct outcome as [code out err| | |crash]; cbn -[Py.strip]; trivial.
  destruct (code =? 0)%Z; cbn -[Py.strip]; trivial.
  destruct (Py.strip out) as [|c text]; trivial.
  destruct (json_loads_pods rt (String c text)); reflexivity.
Qed.

(** C8 as stated fails: [kubectl get pods] exits with code 0 and its body
    parses, to an object whose [items] field is [null]; [get_pods] returns
    [None] all the same. *)
Lemma null_items_is_a_failure :
  spawn null_items 1 (get_pods_command "dev") = Exited 0 "pods" ""
  /\ json_loads_pods null_items (Py.strip "pods")
       = PodObject {| items := Some None |}
  /\ result_of (get_pods null_items "dev" None) [] = Returned None
  /\ ~ (forall (rt : Runtime) (environment : string) (tr : Trace),
          result_of (get_pods rt environment None) tr = Returned None ->
          command_failed (spawn rt (S (length tr)) (get_pods_command environment))
          \/ exists stdout stderr,
               spawn rt (S (length tr)) (get_pods_command environment)
                 = Exited 0 stdout stderr
               /\ (Py.strip stdout = ""
                   \/ json_loads_pods rt (Py.strip stdout) = Malformed)).
Proof.
  repeat split; trivial.
  intros Hall.
  destruct (Hall null_items "dev" [] eq_refl)
    as [Hf | (out & err & Ho & [Hb | Hm])].
  - now apply Hf.
  - inversion Ho; subst. discriminate Hb.
  - inversion Ho; subst. discriminate Hm.
Qed.

(** C8, amended. When the parsed body of the cluster response is an
    object with an empty item list, [get_pods] returns the empty list, not
    [None].  It returns [None] when the command fails (non-zero exit,
    missing executable), when the body is blank or cannot be parsed, and
    also when the parsed object holds a [null] item list.  A body that
    parses to something else than an object raises [AttributeError], and
    an interrupt, or what the process raises beyond the failures caught by
    [run_command], leaves the method as well. *)
Theorem get_pods_empty_list_and_failures
    (rt : Runtime) (environment : string) (namespace : option string)
    (tr : Trace) :
  let ns := match namespace with None => environment | Some n => n end in
  let outcome := spawn rt (S (length tr)) (get_pods_command ns) in
  (forall stdout stderr data,
      outcome = Exited 0 stdout stderr ->
      Py.strip stdout <> "" ->
      json_loads_pods rt (Py.strip stdout) = PodObject data ->
      items data = Some (Some []) ->
      result_of (get_pods rt environment namespace) tr = Returned (Some []))
  /\
  (result_of (get_pods rt environment namespace) tr = Returned None
   <-> command_failed outcome
       \/ exists stdout stderr,
            outcome = Exited 0 stdout stderr /\
            (Py.strip stdout = ""
             \/ json_loads_pods rt (Py.strip stdout) = Malformed
             \/ exists data,
                  json_loads_pods rt (Py.strip stdout) = PodObject data
                  /\ items data = Some None))
  /\
  (forall stdout stderr,
      outcome = Exited 0 stdout stderr ->
      Py.strip stdout <> "" ->
      json_loads_pods rt (Py.strip stdout) = NotAnObject ->
      result_of (get_pods rt environment namespace) tr = Raised AttributeError)
  /\
  (outcome = CtrlC ->
   result_of (get_pods rt environment namespace) tr = Raised KeyboardInterrupt)
  /\
  (forall crash,
      outcome = Crashed crash ->
      result_of (get_pods rt environment namespace) tr
        = Raised (exception_of crash)).
Proof.
  intros ns outcome.
  pose proof (get_pods_eq rt environment namespace tr) as Heq.
  cbv zeta in Heq. fold ns in Heq. fold outcome in Heq. rewrite Heq.
  clear Heq. clearbody outcome.
  split; [|split; [|split; [|split]]].
  - intros out err data -> Hne Hl Hi. cbn -[Py.strip].
    destruct (Py.strip out); [now elim Hne|].
    now rewrite Hl, Hi.
  - destruct outcome as [code out err| | |crash].
    + destruct (code =? 0)%Z eqn:Ec.
      * apply Z.eqb_eq in Ec. subst code.
        destruct (Py.strip out) as [|c text] eqn:Es.
        -- split; [intros _|reflexivity].
           right. exists out, err. rewrite Es. auto.
        -- rewrite <- Es.
           destruct (json_loads_pods rt (Py.strip out)) as [| |data] eqn:El.
           ++ split; [intros _|reflexivity].
              right. exists out, err. auto.
           ++ split; [discriminate|].
              intros [Hf | (o & e' & Ho & [Hb | [Hm | (d & Hd & _)]])].
              ** now elim Hf.
              ** inversion Ho; subst. rewrite Es in Hb. discriminate.
              ** inversion Ho; subst. congruence.
              ** inversion Ho; subst. congruence.
           ++ destruct (items data) as [[l|]|] eqn:Ei.
              ** split; [discriminate|].
                 intros [Hf | (o & e' & Ho & [Hb | [Hm | (d & Hd & Hi)]])].
                 --- now elim Hf.
                 --- inversion Ho; subst. rewrite Es in Hb. discriminate.
                 --- inversion Ho; subst. congruence.
                 --- inversion Ho; subst. rewrite El in Hd.
                     inversion Hd; subst. congruence.
              ** split; [intros _|reflexivity].
                 right. exists out, err. split; [reflexivity|].
                 right. right. now exists data.
              ** split; [discriminate|].
                 intros [Hf | (o & e' & Ho & [Hb | [Hm | (d & Hd & Hi)]])].
                 --- now elim Hf.
                 --- inversion Ho; subst. rewrite Es in Hb. discriminate.
                 --- inversion Ho; subst. congruence.
                 --- inversion Ho; subst. rewrite El in Hd.
                     inversion Hd; subst. congruence.
      * apply Z.eqb_neq in Ec.
        split; [intros _; now left | reflexivity].
    + split; [intros _; now left | reflexivity].
    + split; [discriminate|].
      intros [[] | (o & e' & Ho & _)]. discriminate.
    + split; [destruct crash; discriminate|].
      intros [[] | (o & e' & Ho & _)]. discriminate.
  - intros out err -> Hne Hl. cbn -[Py.strip].
    destruct (Py.strip out); [now elim Hne|].
    now rewrite Hl.
  - intros ->. reflexivity.
  - intros crash ->. reflexivity.
Qed.

(** ** Rollback orchestration *)

Lemma determine_target_in_history (history : list RevisionRecord)
    (revision : option Z) (target : Z) :
  determine_target_revision history revision = inr target ->
  In target (map h_revision history).
Proof.
  destruct revision as [r|].
  - rewrite determine_explicit.
    destruct (Py.contains r (map h_revision history)) eqn:E; [|discriminate].
    intros Heq. inversion Heq; subst. now apply contains_In.
  - destruct (Nat.le_gt_cases 2 (length history)) as [Hlen|Hlen].
    + destruct (determine_previous history Hlen)
        as (top & second & rest & _ & Hd & Hp & _).
      rewrite Hd. intros Heq. inversion Heq; subst.
      apply in_map. eapply Permutation_in; [apply Permutation_sym, Hp|].
      right. now left.
    + rewrite determine_short_history by exact Hlen. discriminate.
Qed.

(** C10. Whenever the rollback command is run, its target revision is one
    of the revision numbers of the history that [helm history] returned
    earlier in the same run, be the target implied or explicit. *)
Theorem rollback_target_is_in_history
    (rt : Runtime) (environment : string) (revision : option Z)
    (confirm : bool) (ns : string) (tr : Trace)
    (command : list string) (capture_output : bool) (outcome : Outcome) :
  In (EExec command capture_output outcome)
    (emitted (rollback_release_from_releases rt environment revision confirm ns) tr) ->
  is_helm_rollback command = true ->
  exists stdout stderr history target,
    In (EExec (helm_history_command ns) true (Exited 0 stdout stderr))
      (emitted (rollback_release_from_releases rt environment revision confirm ns) tr)
    /\ loads_history rt (Py.strip stdout) = Some history
    /\ In target (map h_revision history)
    /\ command = helm_rollback_command target ns.
Proof.
  assert (exists r events,
    rollback_release_from_releases rt environment revision confirm ns tr
      = (r, events ++ tr) /\
    (In (EExec command capture_output outcome) events ->
     is_helm_rollback command = true ->
     exists stdout stderr history target,
       In (EExec (helm_history_command ns) true (Exited 0 stdout stderr)) events
       /\ loads_history rt (Py.strip stdout) = Some history
       /\ In target (map h_revision history)
       /\ command = helm_rollback_command target ns))
    as (r & events & E & H).
  { run; done_with.
    all: intros Hin Hk; cbn in Hin.
    all: repeat (destruct Hin as [Hin|Hin];
          [try discriminate; inversion Hin; subst; try discriminate|]);
         try contradiction.
    all: match goal with
         | Hsp : spawn _ _ (helm_history_command _) = Exited ?c ?out ?err,
           Hs : Py.strip ?out = _,
           Hl : loads_history _ _ = Some ?h,
           Hd : determine_target_revision ?h _ = inr ?z |- _ =>
             let Hc := fresh "Hc" in
             assert (Hc : c = 0%Z) by (apply Z.eqb_eq; assumption);
             subst c; exists out, err, h, z;
             split; [cbn; tauto|];
             split; [rewrite Hs; exact Hl|];
             split; [exact (determine_target_in_history _ _ _ Hd) | reflexivity]
         end. }
  rewrite (emitted_eq _ _ _ _ E). exact H.
Qed.

Lemma no_success_report_guarded (events : list Event) :
  Forall (fun e => is_success_report e = false) events ->
  success_only_after_rollback (rev events).
Proof.
  intros Hall pre e post Heq Hs.
  assert (Hin : In e events).
  { apply in_rev. rewrite Heq. apply in_or_app. right. now left. }
  rewrite Forall_forall in Hall. rewrite (Hall e Hin) in Hs. discriminate.
Qed.

(** What follows the kubeconfig update reports no success either: the
    rollback command is run without captured output, so [run_command]
    returns [None] for it and the success branch is never taken. *)
Lemma rollback_release_from_releases_no_success
    (rt : Runtime) (environment : string) (revision : option Z)
    (confirm : bool) (ns : string) (tr : Trace) :
  Forall (fun e => is_success_report e = false)
    (emitted (rollback_release_from_releases rt environment revision confirm ns) tr).
Proof.
  assert (exists r events,
    rollback_release_from_releases rt environment revision confirm ns tr
      = (r, events ++ tr) /\
    Forall (fun e => is_success_report e = false) events)
    as (r & events & E & H).
  { run; done_with; repeat constructor. }
  rewrite (emitted_eq _ _ _ _ E). exact H.
Qed.

(** C5. In every run of [rollback_release] a success report is emitted
    only after the rollback command was run and exited with code 0; the
    same holds of the part of the method behind the kubeconfig update,
    run from any trace.  (No run reports success at all.) *)
Theorem success_report_needs_rollback
    (rt : Runtime) (environment : string) (revision : option Z)
    (confirm : bool) (namespace : option string) (ns : string) (tr : Trace) :
  success_only_after_rollback
    (rev (emitted (rollback_release rt environment revision confirm namespace) tr))
  /\
  success_only_after_rollback
    (rev (emitted (rollback_release_from_releases rt environment revision confirm ns) tr)).
Proof.
  split; apply no_success_report_guarded.
  - apply rollback_release_stops_after_kubeconfig.
  - apply rollback_release_from_releases_no_success.
Qed.

(** C6. When the confirmation is not skipped and the answer at the prompt
    is not affirmative, or is an interrupt, the run ends there with a
    cancellation warning: the method returns and no rollback command is
    run. *)
Theorem declined_rollback_is_cancelled
    (rt : Runtime) (environment : string) (revision : option Z)
    (confirm : bool) (ns : string) (tr : Trace) (answer : Stdin) :
  confirm = false ->
  In (EInput PProceed answer)
    (emitted (rollback_release_from_releases rt environment revision confirm ns) tr) ->
  declines answer ->
  never_runs is_helm_rollback
    (emitted (rollback_release_from_releases rt environment revision confirm ns) tr)
  /\ result_of (rollback_release_from_releases rt environment revision confirm ns) tr
       = Returned tt
  /\ exists message earlier,
       emitted (rollback_release_from_releases rt environment revision confirm ns) tr
         = ELog WARNING message :: EInput PProceed answer :: earlier
       /\ (message = MRollbackCancelled \/ message = MOperationCancelled).
Proof.
  intros ->.
  assert (exists r events,
    rollback_release_from_releases rt environment revision false ns tr
      = (r, events ++ tr) /\
    (In (EInput PProceed answer) events ->
     declines answer ->
     never_runs is_helm_rollback events
     /\ r = Returned tt
     /\ exists message earlier,
          events = ELog WARNING message :: EInput PProceed answer :: earlier
          /\ (message = MRollbackCancelled \/ message = MOperationCancelled)))
    as (r & events & E & H).
  { run; done_with.
    all: intros Hin Hd; cbn in Hin.
    all: repeat (destruct Hin as [Hin|Hin];
          [try discriminate; inversion Hin; subst; cbn in Hd|]);
         try contradiction.
    all: try (exfalso;
              match goal with
              | Hy : negb (Py.lower ?s =? "y")%string = false |- _ =>
                  apply negb_false_iff, String.eqb_eq in Hy; now apply Hd
              end).
    all: split; [no_such_command|].
    all: split; [reflexivity|].
    all: do 2 eexists; split; [reflexivity|]; tauto. }
  unfold result_of. rewrite (emitted_eq _ _ _ _ E), E. exact H.
Qed.

(** C7, on the code. When the rollback command exits with code 0 the
    method logs "Rollback failed" at level ERROR and returns; it neither
    waits for the rollout nor logs a warning. *)
Theorem successful_rollback_is_reported_failed
    (rt : Runtime) (environment : string) (target_revision : Z)
    (ns : string) (tr : Trace) (stdout stderr : string) :
  spawn rt (S (S (length tr))) (helm_rollback_command target_revision ns)
    = Exited 0 stdout stderr ->
  rollback_release_perform rt environment target_revision ns tr =
    (Returned tt,
     [ELog ERROR MRollbackFailed;
      EExec (helm_rollback_command target_revision ns) false
        (Exited 0 stdout stderr);
      ELog INFO (MExecuting (helm_rollback_command target_revision ns));
      ELog INFO MExecutingRollback] ++ tr).
Proof.
  intros Hs. unfold rollback_release_perform, bind, log, emit.
  rewrite run_command_eq. cbv zeta. cbn [length]. rewrite Hs.
  reflexivity.
Qed.

(** Whatever the rollback command does, the convergence wait is not run
    and no warning is logged. *)
Lemma rollback_release_perform_never_waits
    (rt : Runtime) (environment : string) (target_revision : Z)
    (ns : string) (tr : Trace) :
  let events :=
    emitted (rollback_release_perform rt environment target_revision ns) tr in
  (forall capture_output outcome,
      ~ In (EExec (rollout_status_command ns) capture_output outcome) events)
  /\ (forall message, ~ In (ELog WARNING message) events)
  /\ (forall message, ~ In (ELog SUCCESS message) events).
Proof.
  assert (exists r events,
    rollback_release_perform rt environment target_revision ns tr
      = (r, events ++ tr) /\
    (forall capture_output outcome,
        ~ In (EExec (rollout_status_command ns) capture_output outcome) events)
    /\ (forall message, ~ In (ELog WARNING message) events)
    /\ (forall message, ~ In (ELog SUCCESS message) events))
    as (r & events & E & H).
  { run; done_with.
    all: repeat split; intros; cbn; intuition discriminate. }
  cbv zeta. rewrite (emitted_eq _ _ _ _ E). exact H.
Qed.

(** The no-prior-revision error is logged only for a history of exactly one
    entry with no explicit revision: an empty history is refused one check
    earlier, as "Could not get release history". *)
Lemma no_previous_error_means_single_entry
    (rt : Runtime) (environment : string) (revision : option Z)
    (confirm : bool) (ns : string) (tr : Trace) :
  In (ELog ERROR MNoPreviousRevisionsAvailable)
    (emitted (rollback_release_from_releases rt environment revision confirm ns) tr) ->
  revision = None /\
  exists stdout stderr h,
    In (EExec (helm_history_command ns) true (Exited 0 stdout stderr))
      (emitted (rollback_release_from_releases rt environment revision confirm ns) tr)
    /\ loads_history rt (Py.strip stdout) = Some [h].
Proof.
  assert (exists r events,
    rollback_release_from_releases rt environment revision confirm ns tr
      = (r, events ++ tr) /\
    (In (ELog ERROR MNoPreviousRevisionsAvailable) events ->
     revision = None /\
     exists stdout stderr h,
       In (EExec (helm_history_command ns) true (Exited 0 stdout stderr)) events
       /\ loads_history rt (Py.strip stdout) = Some [h]))
    as (r & events & E & H).
  { run; done_with.
    all: intros Hin; cbn in Hin.
    all: repeat (destruct Hin as [Hin|Hin];
          [try discriminate; inversion Hin; subst|]);
         try contradiction.
    all: match goal with
         | Hsp : spawn _ _ (helm_history_command _) = Exited ?c ?out ?err,
           Hs : Py.strip ?out = _,
           Hl : loads_history _ _ = Some (?h :: ?l),
           Hd : determine_target_revision (?h :: ?l) ?rv = inl _ |- _ =>
             let Hc := fresh "Hc" in
             assert (Hc : c = 0%Z) by (apply Z.eqb_eq; assumption);
             subst c;
             destruct rv as [x|];
             [rewrite determine_explicit in Hd;
              destruct (Py.contains x (map h_revision (h :: l))); discriminate|];
             destruct l as [|k l];
             [|destruct (determine_previous (h :: k :: l)) as (? & ? & ? & _ & Hp & _);
               [cbn; lia | congruence]];
             split; [reflexivity|];
             exists out, err, h; split; [cbn; tauto | rewrite Hs; exact Hl]
         end. }
  rewrite (emitted_eq _ _ _ _ E). exact H.
Qed.

(** ** Pod selection *)

Lemma for_each_pod_choice (pods : list Pod) (i : nat) (tr : Trace) :
  for_each
    (fun '(i, pod) =>
       let status := status_phase pod in
       log (MPodChoice i (metadata_name pod) status) INFO)
    (enumerate_from i pods) tr
  = (Returned tt,
     rev (map (fun '(i, pod) =>
                 ELog INFO (MPodChoice i (metadata_name pod) (status_phase pod)))
            (enumerate_from i pods)) ++ tr).
Proof.
  revert i tr. induction pods as [|p pods IH]; intros i tr; cbn.
  - reflexivity.
  - unfold bind, log, emit at 1. rewrite IH.
    now rewrite <- app_assoc.
Qed.

(** [tail_logs] never selects a pod: like [rollback_release] it stops at
    the kubeconfig update. *)
Lemma tail_logs_stops_after_kubeconfig
    (rt : Runtime) (environment : string) (follow : bool) (lines : Z)
    (pod_name namespace : option string) (tr : Trace) :
  never_runs (fun command => negb (is_update_kubeconfig command))
    (emitted (tail_logs rt environment follow lines pod_name namespace) tr).
Proof.
  assert (exists r events,
    tail_logs rt environment follow lines pod_name namespace tr
      = (r, events ++ tr) /\
    never_runs (fun command => negb (is_update_kubeconfig command)) events)
    as (r & events & E & H).
  { run; done_with; no_such_command. }
  rewrite (emitted_eq _ _ _ _ E). exact H.
Qed.

Lemma enumerate_from_nth {A} (l : list A) (start i : nat) (x : A) :
  nth_error l i = Some x ->
  In (start + i, x) (enumerate_from start l).
Proof.
  revert start i. induction l as [|y l IH]; intros start i Hn.
  - destruct i; discriminate.
  - destruct i as [|i]; cbn in *.
    + inversion Hn; subst. left. now rewrite Nat.add_0_r.
    + right. replace (start + S i) with (S start + i) by lia. now apply IH.
Qed.

(** The list shows every pod, each with its position in discovery order. *)
Lemma pod_listing_shows (pods : list Pod) (i : nat) (p : Pod) :
  nth_error pods i = Some p ->
  In (ELog INFO (MPodChoice i (metadata_name p) (status_phase p)))
    (pod_listing pods).
Proof.
  intros Hn. unfold pod_listing. apply -> in_rev.
  apply (in_map (fun '(i, pod) =>
                   ELog INFO (MPodChoice i (metadata_name pod) (status_phase pod)))
           _ (i, p)).
  exact (enumerate_from_nth pods 0 i p Hn).
Qed.

Lemma enumerate_from_length {A} (l : list A) (start : nat) :
  length (enumerate_from start l) = length l.
Proof.
  revert start. induction l as [|y l IH]; intros start; cbn; [|rewrite IH]; trivial.
Qed.

Lemma pod_listing_length (pods : list Pod) :
  length (pod_listing pods) = length pods.
Proof.
  unfold pod_listing, enumerate.
  now rewrite length_rev, length_map, enumerate_from_length.
Qed.

Lemma enumerate_from_nth_error {A} (l : list A) (start i : nat) (x : A) :
  nth_error l i = Some x ->
  nth_error (enumerate_from start l) i = Some (start + i, x).
Proof.
  revert start i. induction l as [|y l IH]; intros start i Hn.
  - destruct i; discriminate.
  - destruct i as [|i]; cbn in *.
    + inversion Hn; subst. now rewrite Nat.add_0_r.
    + replace (start + S i) with (S start + i) by lia. now apply IH.
Qed.

(** Read in the order in which they are logged, the lines of the list are
    those of the pods in discovery order, each with its position. *)
Lemma pod_listing_in_order (pods : list Pod) (i : nat) (p : Pod) :
  nth_error pods i = Some p ->
  nth_error (rev (pod_listing pods)) i
    = Some (ELog INFO (MPodChoice i (metadata_name p) (status_phase p))).
Proof.
  intros Hn. unfold pod_listing. rewrite rev_involutive.
  apply (map_nth_error
           (fun '(i, pod) =>
              ELog INFO (MPodChoice i (metadata_name pod) (status_phase pod)))
           i (enumerate pods) (d := (i, p))).
  exact (enumerate_from_nth_error pods 0 i p Hn).
Qed.

Lemma tail_logs_stream_events
    (rt : Runtime) (pod_name ns : string) (follow : bool) (lines : Z)
    (tr : Trace) :
  exists r events,
    tail_logs_stream rt pod_name ns follow lines tr = (r, events ++ tr)
    /\ forall command capture_output outcome,
         In (EExec command capture_output outcome) events ->
         command = logs_command pod_name ns lines follow.
Proof.
  unfold tail_logs_stream, try_except, bind, subprocess_run, print, log,
    emit, ret.
  destruct follow; cbn -[Py.strip Py.str logs_command].
  - destruct (spawn rt _ _) as [code out err| | |crash];
      try destruct crash; cbn; done_with;
      intros ? ? ? Hin; cbn in Hin;
      repeat (destruct Hin as [Hin|Hin];
              [try discriminate; now inversion Hin|]);
      contradiction.
  - rewrite run_command_eq. cbv zeta.
    cbn -[Py.strip Py.str logs_command failure_output].
    repeat step; done_with;
      intros ? ? ? Hin; cbn in Hin;
      repeat (destruct Hin as [Hin|Hin];
              [try discriminate; now inversion Hin|]);
      contradiction.
Qed.

(** Several pods: the list, the prompt, and what each answer leads to. *)
Lemma tail_logs_from_pods_several
    (rt : Runtime) (environment : string) (follow : bool) (lines : Z)
    (ns : string) (tr tr1 : Trace) (l : list Pod) :
  get_pods rt environment (Some ns) tr = (Returned (Some l), tr1) ->
  (2 <= length l)%nat ->
  let listed := pod_listing l ++ ELog INFO MMultiplePodsFound :: tr1 in
  let answer := keyboard rt (length listed) in
  let asked := EInput (PSelectPod (Z.of_nat (length l) - 1)) answer :: listed in
  tail_logs_from_pods rt environment follow lines None ns tr =
    match answer with
    | Line s =>
        match int_of_str rt s with
        | Some z =>
            if ((0 <=? z)%Z && (z <? Z.of_nat (length l))%Z)%bool then
              match nth_error l (Z.to_nat z) with
              | Some p =>
                  tail_logs_stream rt (metadata_name p) ns follow lines asked
              | None => (Raised IndexError, asked)
              end
            else (Returned tt, ELog ERROR MInvalidSelection :: asked)
        | None => (Returned tt, ELog WARNING MOperationCancelled :: asked)
        end
    | Interrupt => (Returned tt, ELog WARNING MOperationCancelled :: asked)
    | EndOfFile => (Raised EOFError, asked)
    end.
Proof.
  intros Hget Hlen.
  unfold tail_logs_from_pods, tail_logs_select_pod, bind.
  rewrite Hget.
  destruct l as [|p1 [|p2 l]]; cbn in Hlen; try lia.
  set (l2 := p1 :: p2 :: l) in *.
  unfold log at 1, emit at 1.
  unfold enumerate. rewrite for_each_pod_choice.
  fold (enumerate l2). fold (pod_listing l2).
  cbv zeta.
  set (listed := pod_listing l2 ++ ELog INFO MMultiplePodsFound :: tr1).
  unfold try_except, input, int, ret, raise, log, emit.
  destruct (keyboard rt (length listed)) as [s| |]; trivial.
  destruct (int_of_str rt s) as [z|]; trivial.
  destruct ((0 <=? z)%Z && (z <? Z.of_nat (length l2))%Z)%bool; trivial.
  destruct (nth_error l2 (Z.to_nat z)); trivial.
Qed.

(** C9. With no pod given, what [tail_logs] does after pod discovery:
    without pods it logs an error and returns; a single pod is used as it
    is; with several pods it logs one line for each of them, in discovery
    order, the line at position [i] (from 0) showing the index [i] with the
    name and the phase of the pod at position [i], and then asks; the answer
    [i] at the prompt, when it is an index of the list, selects the pod at
    position [i], whose logs are then read; any other answer ends the
    method before any log is read. *)
Theorem pod_selection
    (rt : Runtime) (environment : string) (follow : bool) (lines : Z)
    (ns : string) (tr tr1 : Trace) (pods : option (list Pod)) :
  get_pods rt environment (Some ns) tr = (Returned pods, tr1) ->
  let run := tail_logs_from_pods rt environment follow lines None ns tr in
  (Py.truthy_list pods = false ->
   run = (Returned tt, ELog ERROR MNoPodsFound :: tr1))
  /\
  (forall p, pods = Some [p] ->
   run = tail_logs_stream rt (metadata_name p) ns follow lines
           (ELog INFO (MUsingPod (metadata_name p)) :: tr1))
  /\
  (forall l, pods = Some l -> (2 <= length l)%nat ->
   let listed := pod_listing l ++ ELog INFO MMultiplePodsFound :: tr1 in
   let answer := keyboard rt (length listed) in
   let asked := EInput (PSelectPod (Z.of_nat (length l) - 1)) answer :: listed in
   (length (pod_listing l) = length l
    /\ forall i p,
         nth_error l i = Some p ->
         nth_error (rev (pod_listing l)) i
           = Some (ELog INFO
                     (MPodChoice i (metadata_name p) (status_phase p))))
   /\ (exists later, snd run = later ++ asked)
   /\ (forall s i p,
       answer = Line s -> int_of_str rt s = Some (Z.of_nat i) ->
       nth_error l i = Some p ->
       run = tail_logs_stream rt (metadata_name p) ns follow lines asked)
   /\ (forall s z,
       answer = Line s -> int_of_str rt s = Some z ->
       (z < 0 \/ Z.of_nat (length l) <= z)%Z ->
       run = (Returned tt, ELog ERROR MInvalidSelection :: asked))
   /\ (forall s,
       answer = Line s -> int_of_str rt s = None ->
       run = (Returned tt, ELog WARNING MOperationCancelled :: asked))
   /\ (answer = Interrupt ->
       run = (Returned tt, ELog WARNING MOperationCancelled :: asked))
   /\ (answer = EndOfFile -> run = (Raised EOFError, asked))).
Proof.
  intros Hget run. subst run.
  split; [|split].
  - unfold tail_logs_from_pods, tail_logs_select_pod, bind. rewrite Hget.
    destruct pods as [[|p l]|]; cbn; intros; try discriminate; reflexivity.
  - intros p ->.
    unfold tail_logs_from_pods, tail_logs_select_pod, bind. rewrite Hget.
    reflexivity.
  - intros l -> Hlen listed answer asked.
    rewrite (tail_logs_from_pods_several _ _ _ _ _ _ _ _ Hget Hlen).
    fold listed. fold answer. fold asked.
    split; [split; [apply pod_listing_length | apply pod_listing_in_order]|].
    split.
    { destruct answer as [s| |].
      - destruct (int_of_str rt s) as [z|].
        + destruct ((0 <=? z)%Z && (z <? Z.of_nat (length l))%Z)%bool.
          * destruct (nth_error l (Z.to_nat z)) as [p|].
            -- destruct (tail_logs_stream_events rt (metadata_name p) ns
                           follow lines asked) as (r & events & E & _).
               rewrite E. now exists events.
            -- now exists [].
          * now exists [ELog ERROR MInvalidSelection].
        + now exists [ELog WARNING MOperationCancelled].
      - now exists [ELog WARNING MOperationCancelled].
      - now exists []. }
    repeat split.
    + intros s i p -> Hi Hn. rewrite Hi.
      assert (i < length l)%nat by (apply nth_error_Some; congruence).
      replace (0 <=? Z.of_nat i)%Z with true by (symmetry; apply Z.leb_le; lia).
      replace (Z.of_nat i <? Z.of_nat (length l))%Z with true
        by (symmetry; apply Z.ltb_lt; lia).
      cbn [andb]. now rewrite Nat2Z.id, Hn.
    + intros s z -> Hi Hr. rewrite Hi.
      replace ((0 <=? z)%Z && (z <? Z.of_nat (length l))%Z)%bool with false;
        [reflexivity|].
      symmetry. apply andb_false_iff.
      destruct Hr; [left; apply Z.leb_gt | right; apply Z.ltb_ge]; lia.
    + intros s -> Hi. now rewrite Hi.
    + now intros ->.
    + now intros ->.
Qed.

(** ** The statements at the scripted runtimes *)

Lemma get_pods_empty_list_and_failures_witness :
  result_of (get_pods empty_cluster "dev" None) [] = Returned (Some []).
Proof.
  apply (proj1 (get_pods_empty_list_and_failures empty_cluster "dev" None [])
           "pods" "" {| items := Some (Some []) |});
    first [reflexivity | discriminate].
Defined.

Lemma pod_selection_witness :
  tail_logs_from_pods operator_picks_1 "dev" false 100 None "dev" [] =
    tail_logs_stream operator_picks_1 "sample-app-b" "dev" false 100
      (EInput (PSelectPod 2) (Line "1")
       :: pod_listing three_pods
          ++ ELog INFO MMultiplePodsFound
             :: snd (get_pods operator_picks_1 "dev" (Some "dev") [])).
Proof.
  apply (proj1 (proj2 (proj2
           (proj2 (proj2 (pod_selection operator_picks_1 "dev" false 100
                            "dev" []
                            (snd (get_pods operator_picks_1 "dev" (Some "dev") []))
                            (Some three_pods) eq_refl))
              three_pods eq_refl ltac:(simpl; lia))))
           "1" 1%nat (pod "sample-app-b" "Running"));
    reflexivity.
Defined.

Lemma declined_rollback_is_cancelled_witness :
  never_runs is_helm_rollback
    (emitted (rollback_release_from_releases operator_says_no "dev" None false "dev") [])
  /\ result_of (rollback_release_from_releases operator_says_no "dev" None false "dev") []
       = Returned tt
  /\ exists message earlier,
       emitted (rollback_release_from_releases operator_says_no "dev" None false "dev") []
         = ELog WARNING message :: EInput PProceed (Line "n") :: earlier
       /\ (message = MRollbackCancelled \/ message = MOperationCancelled).
Proof.
  apply (declined_rollback_is_cancelled operator_says_no "dev" None false
           "dev" [] (Line "n") eq_refl).
  - vm_compute. repeat (first [left; reflexivity | right]).
  - vm_compute. discriminate.
Defined.

Lemma successful_rollback_is_reported_failed_witness :
  rollback_release_perform rollout_times_out "dev" 2 "dev" [] =
    (Returned tt,
     [ELog ERROR MRollbackFailed;
      EExec (helm_rollback_command 2 "dev") false (Exited 0 "" "");
      ELog INFO (MExecuting (helm_rollback_command 2 "dev"));
      ELog INFO MExecutingRollback]).
Proof.
  apply (successful_rollback_is_reported_failed rollout_times_out
           "dev" 2 "dev" [] "" "").
  reflexivity.
Defined.

Lemma rollback_target_is_in_history_witness :
  exists stdout stderr history target,
    In (EExec (helm_history_command "dev") true (Exited 0 stdout stderr))
      (emitted (rollback_release_from_releases all_succeeds "dev" None true "dev") [])
    /\ loads_history all_succeeds (Py.strip stdout) = Some history
    /\ In target (map h_revision history)
    /\ helm_rollback_command 2 "dev" = helm_rollback_command target "dev".
Proof.
  apply (rollback_target_is_in_history all_succeeds "dev" None true "dev" []
           (helm_rollback_command 2 "dev") false (Exited 0 "" "")).
  - vm_compute. repeat (first [left; reflexivity | right]).
  - reflexivity.
Defined.

(** The run of [rollback_release] where everything succeeds, as the script
    stands: it ends after the kubeconfig update. *)
Example rollback_release_all_succeeds :
  rollback_release all_succeeds "dev" None true None [] =
    (Returned tt,
     [EExec ["aws"; "eks"; "update-kubeconfig"; "--region"; "us-west-2";
             "--name"; "demo-eks-dev"] false (Exited 0 "" "");
      ELog INFO (MExecuting
                   ["aws"; "eks"; "update-kubeconfig"; "--region"; "us-west-2";
                    "--name"; "demo-eks-dev"]);
      ELog INFO (MInitiatingRollback "sample-app" "dev")]).
Proof. reflexivity. Qed.

(** Rolling forward: the release is at revision 1 and revision 3 is asked
    for; the rollback command is run with 3. *)
Example later_revision_is_rolled_to :
  In (EExec (helm_rollback_command 3 "dev") false (Exited 0 "" ""))
    (emitted (rollback_release_from_releases
                (scripted Interrupt 1 three_revisions three_pods 0)
                "dev" (Some 3%Z) true "dev") []).
Proof. vm_compute. repeat (first [left; reflexivity | right]). Qed.

(** The scenarios of revision resolution. *)
Example resolve_three_revisions :
  determine_target_revision [rev_entry 3; rev_entry 2; rev_entry 1] None
    = inr 2%Z.
Proof. reflexivity. Qed.

Example resolve_single_revision :
  determine_target_revision [rev_entry 1] None
    = inl MNoPreviousRevisionsAvailable.
Proof. reflexivity. Qed.

Example resolve_unknown_revision :
  determine_target_revision [rev_entry 1; rev_entry 2] (Some 5%Z)
    = inl (MRevisionNotFound 5 [1%Z; 2%Z]).
Proof. reflexivity. Qed.

(** * Further properties of the script *)

(** ** Running commands *)

(** X1. Run without captured output, [run_command] returns [None] whether
    the process exits with code 0, exits with another code or is not found:
    its callers cannot tell success from failure.  An interrupt leaves it
    as [KeyboardInterrupt], and any other exception of [subprocess.run]
    that is not one of the two caught classes leaves it unchanged. *)
Theorem run_command_uncaptured_result
    (rt : Runtime) (command : list string) (tr : Trace) :
  result_of (run_command rt command false) tr =
    match spawn rt (S (length tr)) command with
    | Exited _ _ _ | NoSuchFile => Returned None
    | CtrlC => Raised KeyboardInterrupt
    | Crashed e => Raised (exception_of e)
    end.
Proof.
  unfold result_of. rewrite run_command_eq. cbv zeta.
  destruct (spawn rt _ _) as [code out err| | |crash]; cbn; trivial.
  now destruct (code =? 0)%Z.
Qed.

(** X2. Run with captured output, [run_command] returns a text exactly
    when the process exits with code 0 and its output is decoded, and the
    text is the decoded standard output without the surrounding white
    space, that of Unicode included. *)
Theorem run_command_captured_output
    (rt : Runtime) (command : list string) (tr : Trace) (text : string) :
  result_of (run_command rt command true) tr = Returned (Some text)
  <-> exists stdout stderr,
        spawn rt (S (length tr)) command = Exited 0 stdout stderr
        /\ text = Py.strip stdout.
Proof.
  unfold result_of. rewrite run_command_eq. cbv zeta.
  destruct (spawn rt _ _) as [code out err| | |crash]; cbn -[Py.strip].
  - destruct (code =? 0)%Z eqn:Ec; cbn -[Py.strip].
    + apply Z.eqb_eq in Ec. subst code. split.
      * intros Heq. inversion Heq. now exists out, err.
      * intros (o & e & Heq & ->). inversion Heq. reflexivity.
    + apply Z.eqb_neq in Ec. split; [discriminate|].
      intros (o & e & Heq & _). inversion Heq. contradiction.
  - split; [discriminate | intros (o & e & Heq & _); discriminate].
  - split; [discriminate | intros (o & e & Heq & _); discriminate].
  - split; [discriminate | intros (o & e & Heq & _); discriminate].
Qed.

Lemma run_command_captured_output_witness :
  result_of (run_command all_succeeds (helm_list_command "dev") true) []
    = Returned (Some "releases").
Proof.
  apply (proj2 (run_command_captured_output all_succeeds
                  (helm_list_command "dev") [] "releases")).
  exists "releases", "". split; reflexivity.
Defined.

(** X3. A call of [run_command] logs the command, starts exactly one
    process and then logs ERROR lines and nothing else, with no second
    attempt.  It logs such lines exactly for the two failures it catches,
    a non-zero exit code and an executable that is not found: there is no
    error line when the process exits with code 0, is interrupted, or
    raises another exception, such as [PermissionError]. *)
Theorem run_command_runs_once
    (rt : Runtime) (command : list string) (capture_output : bool)
    (tr : Trace) :
  let outcome := spawn rt (S (length tr)) command in
  exists errors,
    emitted (run_command rt command capture_output) tr
      = errors ++ [EExec command capture_output outcome;
                   ELog INFO (MExecuting command)]
    /\ Forall (fun e => is_error_log e = true) errors
    /\ (errors = [] <-> ~ command_failed outcome).
Proof.
  intros outcome.
  assert (exists r errors,
    run_command rt command capture_output tr
      = (r, (errors ++ [EExec command capture_output outcome;
                        ELog INFO (MExecuting command)]) ++ tr)
    /\ Forall (fun e => is_error_log e = true) errors
    /\ (errors = [] <-> ~ command_failed outcome))
    as (r & errors & E & H).
  { rewrite run_command_eq. cbv zeta. fold outcome.
    destruct outcome as [code out err| | |crash]; cbn.
    - destruct (code =? 0)%Z eqn:Ec.
      + apply Z.eqb_eq in Ec. subst code.
        exists (Returned (if capture_output then Some (Py.strip out) else None)), [].
        repeat split; trivial. intros _ Hf. now apply Hf.
      + apply Z.eqb_neq in Ec.
        exists (Returned None),
          (failure_output capture_output out err
           ++ [ELog ERROR (MCommandFailed command code)]).
        split; [now rewrite <- !app_assoc|].
        split.
        * apply Forall_app. split; [|repeat constructor].
          unfold failure_output.
          apply Forall_app. split;
            match goal with |- context [if ?b then _ else _] => destruct b end;
            repeat constructor.
        * split; [|intros Hn; now elim Hn].
          intros Heq. apply app_eq_nil in Heq as [_ Heq]. discriminate.
    - exists (Returned None), [ELog ERROR (MCommandNotFound (hd "" command))].
      repeat split; trivial; try discriminate.
      + repeat constructor.
      + intros Hn. now elim Hn.
    - exists (Raised KeyboardInterrupt), [].
      repeat split; trivial. intros _ [].
    - exists (Raised (exception_of crash)), [].
      repeat split; trivial. intros _ []. }
  exists errors. now rewrite (emitted_eq _ _ _ _ E).
Qed.

(** X4. [update_kubeconfig] runs [aws eks update-kubeconfig] for the
    cluster [demo-eks-<environment>] in region [us-west-2] and then returns
    [False] whatever the outcome, success included; it returns [True] in
    no run.  What [run_command] does not catch leaves it as an
    exception. *)
Theorem update_kubeconfig_always_false
    (rt : Runtime) (environment : string) (tr : Trace) :
  let outcome := spawn rt (S (length tr)) (update_kubeconfig_command environment) in
  result_of (update_kubeconfig rt environment) tr =
    match outcome with
    | CtrlC => Raised KeyboardInterrupt
    | Crashed e => Raised (exception_of e)
    | _ => Returned false
    end
  /\ In (EExec (update_kubeconfig_command environment) false outcome)
       (emitted (update_kubeconfig rt environment) tr).
Proof.
  intros outcome.
  assert (exists events,
    update_kubeconfig rt environment tr
      = (match outcome with
         | CtrlC => Raised KeyboardInterrupt
         | Crashed e => Raised (exception_of e)
         | _ => Returned false
         end, events ++ tr)
    /\ In (EExec (update_kubeconfig_command environment) false outcome) events)
    as (events & E & H).
  { unfold update_kubeconfig, bind, ret.
    change ["aws"; "eks"; "update-kubeconfig"; "--region"; region; "--name";
            (cluster_prefix ++ "-" ++ environment)%string]
      with (update_kubeconfig_command environment).
    rewrite run_command_eq. cbv zeta. fold outcome.
    destruct outcome as [code out err| | |crash]; cbn;
      [destruct (code =? 0)%Z; cbn | | |];
      eexists; (split; [apply pair_prefix; prefix | cbn; try rewrite in_app_iff; cbn; tauto]). }
  unfold result_of. rewrite (emitted_eq _ _ _ _ E), E. now split.
Qed.

(** ** The two commands from their entry *)

Lemma valid_environment_iff (environment : string) :
  existsb (String.eqb environment) valid_environments = true
  <-> In environment valid_environments.
Proof.
  rewrite existsb_exists. split.
  - intros (x & Hx & E). apply String.eqb_eq in E. now subst.
  - intros Hin. exists environment. split; [exact Hin | apply String.eqb_refl].
Qed.

Ltac only_kubeconfig :=
  repeat (apply Forall_cons; [cbn; first [exact I | split; reflexivity]|]);
  apply Forall_nil.

(** X5. Whatever the cluster answers, [rollback_release] gets no further
    than the kubeconfig update: its only process is
    [aws eks update-kubeconfig], run at most once; it lists no release,
    reads no history, asks nothing and rolls nothing back.  It returns
    normally when that process exits or is not found, and when nothing is
    run; an interrupt of the process and any exception that [run_command]
    does not catch leave the method. *)
Theorem rollback_release_only_updates_kubeconfig
    (rt : Runtime) (environment : string) (revision : option Z)
    (confirm : bool) (namespace : option string) (tr : Trace) :
  let m := rollback_release rt environment revision confirm namespace in
  Forall (only_updates_kubeconfig environment) (emitted m tr)
  /\ (runs (fun _ => true) (emitted m tr) <= 1)%nat
  /\ (forall outcome,
        In (EExec (update_kubeconfig_command environment) false outcome)
           (emitted m tr) ->
        result_of m tr = match uncaught outcome with
                         | Some e => Raised e
                         | None => Returned tt
                         end)
  /\ (runs (fun _ => true) (emitted m tr) = 0%nat ->
      result_of m tr = Returned tt).
Proof.
  intros m. subst m.
  assert (exists r events,
    rollback_release rt environment revision confirm namespace tr
      = (r, events ++ tr)
    /\ Forall (only_updates_kubeconfig environment) events
    /\ (runs (fun _ => true) events <= 1)%nat
    /\ (forall outcome,
          In (EExec (update_kubeconfig_command environment) false outcome)
             events ->
          r = match uncaught outcome with
              | Some e => Raised e
              | None => Returned tt
              end)
    /\ (runs (fun _ => true) events = 0%nat -> r = Returned tt))
    as (r & events & E & H).
  { run; done_with.
    all: split; [only_kubeconfig|].
    all: split; [cbn; lia|].
    all: split;
      [ intros outcome Hin; cbn in Hin;
        repeat (destruct Hin as [Hin|Hin];
                [try discriminate Hin; inversion Hin; subst; reflexivity|]);
        contradiction
      | cbn; intros Hnone; first [reflexivity | discriminate Hnone] ]. }
  unfold result_of. rewrite (emitted_eq _ _ _ _ E), E. exact H.
Qed.

Lemma rollback_release_only_updates_kubeconfig_witness :
  result_of (rollback_release not_executable "dev" None true None) []
    = Raised PermissionError.
Proof.
  apply (proj1 (proj2 (proj2 (rollback_release_only_updates_kubeconfig
                                not_executable "dev" None true None [])))
           (Crashed PermissionDenied)).
  vm_compute. repeat (first [left; reflexivity | right]).
Defined.

(** X6. Likewise [tail_logs]: its only process is
    [aws eks update-kubeconfig], run at most once; it discovers no pod, asks
    nothing, and reads and prints no log.  Its result is that of the
    kubeconfig process: a normal return when it exits or is not found, and
    when nothing is run; the exception otherwise. *)
Theorem tail_logs_only_updates_kubeconfig
    (rt : Runtime) (environment : string) (follow : bool) (lines : Z)
    (pod_name namespace : option string) (tr : Trace) :
  let m := tail_logs rt environment follow lines pod_name namespace in
  Forall (only_updates_kubeconfig environment) (emitted m tr)
  /\ (runs (fun _ => true) (emitted m tr) <= 1)%nat
  /\ (forall outcome,
        In (EExec (update_kubeconfig_command environment) false outcome)
           (emitted m tr) ->
        result_of m tr = match uncaught outcome with
                         | Some e => Raised e
                         | None => Returned tt
                         end)
  /\ (runs (fun _ => true) (emitted m tr) = 0%nat ->
      result_of m tr = Returned tt).
Proof.
  intros m. subst m.
  assert (exists r events,
    tail_logs rt environment follow lines pod_name namespace tr
      = (r, events ++ tr)
    /\ Forall (only_updates_kubeconfig environment) events
    /\ (runs (fun _ => true) events <= 1)%nat
    /\ (forall outcome,
          In (EExec (update_kubeconfig_command environment) false outcome)
             events ->
          r = match uncaught outcome with
              | Some e => Raised e
              | None => Returned tt
              end)
    /\ (runs (fun _ => true) events = 0%nat -> r = Returned tt))
    as (r & events & E & H).
  { run; done_with.
    all: split; [only_kubeconfig|].
    all: split; [cbn; lia|].
    all: split;
      [ intros outcome Hin; cbn in Hin;
        repeat (destruct Hin as [Hin|Hin];
                [try discriminate Hin; inversion Hin; subst; reflexivity|]);
        contradiction
      | cbn; intros Hnone; first [reflexivity | discriminate Hnone] ]. }
  unfold result_of. rewrite (emitted_eq _ _ _ _ E), E. exact H.
Qed.

Lemma tail_logs_only_updates_kubeconfig_witness :
  result_of (tail_logs all_succeeds "dev" false 100 None None) []
    = Returned tt.
Proof.
  apply (proj1 (proj2 (proj2 (tail_logs_only_updates_kubeconfig
                                all_succeeds "dev" false 100 None None [])))
           (Exited 0 "" "")).
  vm_compute. repeat (first [left; reflexivity | right]).
Defined.

(** X7. An environment other than [dev], [stage] and [prod] (the
    comparison is exact) is refused before anything is run: both commands
    log one ERROR line naming the environment and the valid ones, and
    return. *)
Theorem invalid_environment_runs_nothing
    (rt : Runtime) (environment : string) (tr : Trace) :
  ~ In environment valid_environments ->
  let refused :=
    (Returned tt,
     ELog ERROR (MInvalidEnvironment environment ["dev"; "stage"; "prod"]) :: tr) in
  (forall revision confirm namespace,
      rollback_release rt environment revision confirm namespace tr = refused)
  /\ (forall follow lines pod_name namespace,
      tail_logs rt environment follow lines pod_name namespace tr = refused).
Proof.
  intros Hn refused. subst refused.
  assert (E : existsb (String.eqb environment) valid_environments = false).
  { destruct (existsb _ _) eqn:E; trivial.
    apply valid_environment_iff in E. contradiction. }
  split; intros; unfold rollback_release, tail_logs, validate_environment,
    bind, ret, log, emit; rewrite E; reflexivity.
Qed.

Lemma invalid_environment_runs_nothing_witness :
  rollback_release all_succeeds "Dev" None true None [] =
    (Returned tt,
     [ELog ERROR (MInvalidEnvironment "Dev" ["dev"; "stage"; "prod"])]).
Proof.
  apply (proj1 (invalid_environment_runs_nothing all_succeeds "Dev" []
                  ltac:(simpl; intros [E|[E|[E|[]]]]; discriminate))).
Defined.

(** X8. Once the arguments are parsed, [main] ends with exit status 0
    unless a process raised an exception other than an interrupt that
    [run_command] does not catch: no failure that [run_command] reports
    reaches the exit status.  Exit status 1 comes with the "Unexpected
    error" line for that exception.  Nothing else is printed but the help
    text and the note of an interrupt. *)
Theorem main_exit_status
    (rt : Runtime) (help : string) (str_exception : Exn -> string)
    (args : Args) (tr : Trace) :
  let m := main rt help str_exception args in
  result_of m tr = Returned (if existsb crashed (emitted m tr) then 1 else 0)%Z
  /\ forall text,
       In (EPrint text) (emitted m tr) ->
       text = help
       \/ text = interrupted_message
       \/ exists command capture_output crash,
            In (EExec command capture_output (Crashed crash)) (emitted m tr)
            /\ text = (Colors.RED ++ "Unexpected error: "
                       ++ str_exception (exception_of crash)
                       ++ Colors.RESET)%string.
Proof.
  intros m. subst m.
  assert (exists r events,
    main rt help str_exception args tr = (r, events ++ tr)
    /\ r = Returned (if existsb crashed events then 1 else 0)%Z
    /\ forall text,
         In (EPrint text) events ->
         text = help
         \/ text = interrupted_message
         \/ exists command capture_output crash,
              In (EExec command capture_output (Crashed crash)) events
              /\ text = (Colors.RED ++ "Unexpected error: "
                         ++ str_exception (exception_of crash)
                         ++ Colors.RESET)%string)
    as (r & events & E & H).
  { unfold main. destruct args; run.
    all: done_with.
    all: split; [reflexivity|].
    all: intros text Hin; cbn in Hin.
    all: repeat (destruct Hin as [Hin|Hin];
                 [try discriminate;
                  inversion Hin; subst;
                  first [ left; reflexivity
                        | right; left; reflexivity
                        | right; right; do 3 eexists;
                          split; [cbn; right; left; reflexivity | reflexivity] ]
                 |]);
         try contradiction. }
  unfold result_of. rewrite (emitted_eq _ _ _ _ E), E. exact H.
Qed.

(** When [aws] may not be executed, [main] ends with exit status 1. *)
Example main_exits_1_on_permission_error (help : string)
    (str_exception : Exn -> string) :
  result_of (main not_executable help str_exception
               (RollbackCommand "dev" None false None)) []
    = Returned 1%Z.
Proof. reflexivity. Qed.

(** ** Behind the kubeconfig update: the rollback *)

(** The two ways in which the resolution step fails. *)
Lemma determine_errors (H : list RevisionRecord) (revision : option Z)
    (message : Msg) :
  determine_target_revision H revision = inl message ->
  (revision = None /\ (length H < 2)%nat
   /\ message = MNoPreviousRevisionsAvailable)
  \/ (exists r, revision = Some r /\ ~ In r (map h_revision H)
                /\ message = MRevisionNotFound r (map h_revision H)).
Proof.
  destruct revision as [r|]; intros Hd.
  - right. exists r. rewrite determine_explicit in Hd.
    destruct (Py.contains r (map h_revision H)) eqn:Hc; [discriminate|].
    inversion Hd. repeat split.
    intros Hin. apply contains_In in Hin. congruence.
  - left. destruct (Nat.le_gt_cases 2 (length H)) as [Hlen|Hlen].
    + destruct (determine_previous H Hlen) as (? & ? & ? & _ & Ht & _).
      congruence.
    + rewrite determine_short_history in Hd by exact Hlen.
      inversion Hd. now repeat split.
Qed.

(** X9. The part of [rollback_release] behind the kubeconfig update tries
    nothing twice: [helm list] is run once, [helm history] and
    [helm rollback] at most once each, no other command is run (the rollout
    status and the final pod listing never are), and at most one prompt is
    shown. *)
Theorem rollback_runs_each_command_once
    (rt : Runtime) (environment : string) (revision : option Z)
    (confirm : bool) (ns : string) (tr : Trace) :
  let events :=
    emitted (rollback_release_from_releases rt environment revision confirm ns) tr in
  runs is_helm_list events = 1%nat
  /\ (runs is_helm_history events <= 1)%nat
  /\ (runs is_helm_rollback events <= 1)%nat
  /\ runs (fun _ => true) events
       = (runs is_helm_list events + runs is_helm_history events
          + runs is_helm_rollback events)%nat
  /\ (length (filter is_prompt events) <= 1)%nat.
Proof.
  assert (exists r events,
    rollback_release_from_releases rt environment revision confirm ns tr
      = (r, events ++ tr)
    /\ runs is_helm_list events = 1%nat
    /\ (runs is_helm_history events <= 1)%nat
    /\ (runs is_helm_rollback events <= 1)%nat
    /\ runs (fun _ => true) events
         = (runs is_helm_list events + runs is_helm_history events
            + runs is_helm_rollback events)%nat
    /\ (length (filter is_prompt events) <= 1)%nat)
    as (r & events & E & H).
  { run; done_with; cbn; repeat split; lia. }
  cbv zeta. rewrite (emitted_eq _ _ _ _ E). exact H.
Qed.

(** X10. The history is read only for a release that [helm list] shows
    under the exact name [sample-app]: whenever [helm history] is run, the
    list that [helm list] returned before holds a release of that name. *)
Theorem history_needs_listed_release
    (rt : Runtime) (environment : string) (revision : option Z)
    (confirm : bool) (ns : string) (tr : Trace)
    (command : list string) (capture_output : bool) (outcome : Outcome) :
  In (EExec command capture_output outcome)
    (emitted (rollback_release_from_releases rt environment revision confirm ns) tr) ->
  is_helm_history command = true ->
  exists stdout stderr releases release,
    In (EExec (helm_list_command ns) true (Exited 0 stdout stderr))
      (emitted (rollback_release_from_releases rt environment revision confirm ns) tr)
    /\ loads_releases rt (Py.strip stdout) = Some releases
    /\ In release releases
    /\ r_name release = app_name.
Proof.
  assert (exists r events,
    rollback_release_from_releases rt environment revision confirm ns tr
      = (r, events ++ tr) /\
    (In (EExec command capture_output outcome) events ->
     is_helm_history command = true ->
     exists stdout stderr releases release,
       In (EExec (helm_list_command ns) true (Exited 0 stdout stderr)) events
       /\ loads_releases rt (Py.strip stdout) = Some releases
       /\ In release releases
       /\ r_name release = app_name))
    as (r & events & E & H).
  { run; done_with.
    all: intros Hin Hk; cbn in Hin.
    all: repeat (destruct Hin as [Hin|Hin];
          [try discriminate; inversion Hin; subst; try discriminate|]);
         try contradiction.
    all: match goal with
         | Hsp : spawn _ _ (helm_list_command _) = Exited ?c ?out ?err,
           Hs : Py.strip ?out = _,
           Hl : loads_releases _ _ = Some ?l,
           Hf : _ = Some ?rel |- _ =>
             let Hc := fresh "Hc" in
             assert (Hc : c = 0%Z) by (apply Z.eqb_eq; assumption);
             subst c;
             change (find (fun release => (r_name release =? app_name)%string) l
                     = Some rel) in Hf;
             apply find_some in Hf as [Hfin Hfname];
             apply String.eqb_eq in Hfname;
             exists out, err, l, rel;
             split; [cbn; tauto|];
             split; [rewrite Hs; exact Hl|];
             split; [exact Hfin | exact Hfname]
         end. }
  rewrite (emitted_eq _ _ _ _ E). exact H.
Qed.

Lemma history_needs_listed_release_witness :
  exists stdout stderr releases release,
    In (EExec (helm_list_command "dev") true (Exited 0 stdout stderr))
      (emitted (rollback_release_from_releases all_succeeds "dev" None true "dev") [])
    /\ loads_releases all_succeeds (Py.strip stdout) = Some releases
    /\ In release releases
    /\ r_name release = app_name.
Proof.
  apply (history_needs_listed_release all_succeeds "dev" None true "dev" []
           (helm_history_command "dev") true (Exited 0 "history" "")).
  - vm_compute. repeat (first [left; reflexivity | right]).
  - reflexivity.
Defined.

(** X11. An explicit revision that the history does not hold stops the
    run at the ERROR line that names it: the line is the last thing the run
    does, no prompt is shown and no rollback command is run. *)
Theorem unknown_revision_stops_the_run
    (rt : Runtime) (environment : string) (revision : option Z)
    (confirm : bool) (ns : string) (tr : Trace)
    (r : Z) (available : list Z) :
  In (ELog ERROR (MRevisionNotFound r available))
    (emitted (rollback_release_from_releases rt environment revision confirm ns) tr) ->
  revision = Some r
  /\ ~ In r available
  /\ (exists earlier,
        emitted (rollback_release_from_releases rt environment revision confirm ns) tr
          = ELog ERROR (MRevisionNotFound r available) :: earlier)
  /\ filter is_prompt
       (emitted (rollback_release_from_releases rt environment revision confirm ns) tr)
       = []
  /\ never_runs is_helm_rollback
       (emitted (rollback_release_from_releases rt environment revision confirm ns) tr)
  /\ result_of (rollback_release_from_releases rt environment revision confirm ns) tr
       = Returned tt.
Proof.
  assert (exists res events,
    rollback_release_from_releases rt environment revision confirm ns tr
      = (res, events ++ tr) /\
    (In (ELog ERROR (MRevisionNotFound r available)) events ->
     revision = Some r
     /\ ~ In r available
     /\ (exists earlier,
           events = ELog ERROR (MRevisionNotFound r available) :: earlier)
     /\ filter is_prompt events = []
     /\ never_runs is_helm_rollback events
     /\ res = Returned tt))
    as (res & events & E & H).
  { run; done_with.
    all: intros Hin; cbn in Hin.
    all: repeat (destruct Hin as [Hin|Hin];
          [try discriminate; inversion Hin; subst|]);
         try contradiction.
    all: match goal with
         | Hd : determine_target_revision _ _ = inl _ |- _ =>
             apply determine_errors in Hd
               as [(_ & _ & Hm) | (x & Hr & Hx & Hm)];
             [discriminate | inversion Hm; subst]
         end.
    all: split; [reflexivity|].
    all: split; [assumption|].
    all: split; [eexists; reflexivity|].
    all: split; [reflexivity|].
    all: split; [no_such_command | reflexivity]. }
  unfold result_of. rewrite (emitted_eq _ _ _ _ E), E. exact H.
Qed.

Lemma unknown_revision_stops_the_run_witness :
  Some 7%Z = Some 7%Z
  /\ ~ In 7%Z [1%Z; 2%Z; 3%Z]
  /\ (exists earlier,
        emitted (rollback_release_from_releases all_succeeds "dev" (Some 7%Z) false "dev") []
          = ELog ERROR (MRevisionNotFound 7 [1%Z; 2%Z; 3%Z]) :: earlier)
  /\ filter is_prompt
       (emitted (rollback_release_from_releases all_succeeds "dev" (Some 7%Z) false "dev") [])
       = []
  /\ never_runs is_helm_rollback
       (emitted (rollback_release_from_releases all_succeeds "dev" (Some 7%Z) false "dev") [])
  /\ result_of (rollback_release_from_releases all_succeeds "dev" (Some 7%Z) false "dev") []
       = Returned tt.
Proof.
  apply (unknown_revision_stops_the_run all_succeeds "dev" (Some 7%Z) false
           "dev" [] 7 [1%Z; 2%Z; 3%Z]).
  vm_compute. repeat (first [left; reflexivity | right]).
Defined.

(** ** The confirmation *)

Lemma lower_char_is_y (c : ascii) :
  Py.lower_char c = "y"%char <-> c = "y"%char \/ c = "Y"%char.
Proof.
  destruct c as [[] [] [] [] [] [] [] []]; vm_compute;
    (split; [intros E; first [discriminate E | auto]
            | intros [E|E]; first [discriminate E | reflexivity]]).
Qed.

(** Only the one-letter answers [y] and [Y] are lowered to [y]. *)
Lemma lower_is_y (s : string) :
  Py.lower s = "y" <-> s = "y" \/ s = "Y".
Proof.
  destruct s as [|c [|c' s]]; cbn.
  - split; [discriminate | intros [E|E]; discriminate].
  - split.
    + intros E. inversion E as [Hc]. apply lower_char_is_y in Hc as [->| ->]; auto.
    + intros [E|E]; inversion E; reflexivity.
  - split; [discriminate | intros [E|E]; discriminate].
Qed.

(** X12. The confirmation lets the rollback go on exactly when it is
    skipped ([confirm]) or the answer at the prompt is the single letter
    [y] or [Y]; any other line, [yes] included, does not.  When it is
    skipped nothing is asked. *)
Theorem confirmation_accepts_only_y
    (rt : Runtime) (confirm : bool) (tr : Trace) :
  (result_of (rollback_release_confirm rt confirm) tr = Returned true
   <-> confirm = true
       \/ keyboard rt (length tr) = Line "y"
       \/ keyboard rt (length tr) = Line "Y")
  /\ (confirm = true ->
      rollback_release_confirm rt confirm tr = (Returned true, tr)).
Proof.
  split; [|intros ->; reflexivity].
  unfold result_of, rollback_release_confirm, try_except, bind, input, ret,
    log, emit.
  destruct confirm; cbn.
  - split; auto.
  - destruct (keyboard rt (length tr)) as [s| |]; cbn.
    + destruct (Py.lower s =? "y")%string eqn:El; cbn.
      * apply String.eqb_eq, lower_is_y in El.
        split; [intros _|reflexivity].
        right. destruct El as [-> | ->]; auto.
      * apply String.eqb_neq in El.
        split; [discriminate|].
        intros [Hc | [Hy | Hy]]; [discriminate| |]; inversion Hy; subst s;
          elim El; reflexivity.
    + split; [discriminate | intros [E|[E|E]]; discriminate].
    + split; [discriminate | intros [E|[E|E]]; discriminate].
Qed.

Lemma confirmation_accepts_only_y_witness :
  result_of (rollback_release_confirm
               (scripted (Line "Y") 3 three_revisions three_pods 0) false) []
    = Returned true
  /\ rollback_release_confirm all_succeeds true [] = (Returned true, []).
Proof.
  split.
  - apply (proj2 (proj1 (confirmation_accepts_only_y
                           (scripted (Line "Y") 3 three_revisions three_pods 0)
                           false []))).
    right. right. reflexivity.
  - apply (proj2 (confirmation_accepts_only_y all_succeeds true []) eq_refl).
Defined.

(** X13. Behind the kubeconfig update, the end of the input at the
    confirmation prompt is not taken as a cancellation:
    [rollback_release] is left with [EOFError], the prompt being the last
    thing the run did; "Rollback cancelled" is not logged and no rollback
    command is run.  Likewise a process that is interrupted, or that raises
    an exception [run_command] does not catch, is the last thing the run
    did, and its exception leaves the method. *)
Theorem rollback_escaping_exceptions
    (rt : Runtime) (environment : string) (revision : option Z)
    (confirm : bool) (ns : string) (tr : Trace) :
  let m := rollback_release_from_releases rt environment revision confirm ns in
  let events := emitted m tr in
  (In (EInput PProceed EndOfFile) events ->
   result_of m tr = Raised EOFError
   /\ confirm = false
   /\ never_runs is_helm_rollback events
   /\ ~ In (ELog WARNING MRollbackCancelled) events
   /\ exists earlier, events = EInput PProceed EndOfFile :: earlier)
  /\ (forall command capture_output outcome e,
        In (EExec command capture_output outcome) events ->
        uncaught outcome = Some e ->
        result_of m tr = Raised e
        /\ exists earlier,
             events = EExec command capture_output outcome :: earlier).
Proof.
  assert (exists r events,
    rollback_release_from_releases rt environment revision confirm ns tr
      = (r, events ++ tr) /\
    (In (EInput PProceed EndOfFile) events ->
     r = Raised EOFError
     /\ confirm = false
     /\ never_runs is_helm_rollback events
     /\ ~ In (ELog WARNING MRollbackCancelled) events
     /\ exists earlier, events = EInput PProceed EndOfFile :: earlier)
    /\ (forall command capture_output outcome e,
          In (EExec command capture_output outcome) events ->
          uncaught outcome = Some e ->
          r = Raised e
          /\ exists earlier,
               events = EExec command capture_output outcome :: earlier))
    as (r & events & E & H).
  { run; done_with.
    all: split;
      [ intros Hin; cbn in Hin;
        repeat (destruct Hin as [Hin|Hin]; [try discriminate Hin|]);
        try contradiction;
        (split; [reflexivity|]);
        (split; [now apply negb_true_iff|]);
        (split; [no_such_command|]);
        (split; [|eexists; reflexivity]);
        intros Hw; cbn in Hw;
        repeat (destruct Hw as [Hw|Hw]; [discriminate Hw|]);
        contradiction
      | intros ? ? ? ? Hin Hu; cbn in Hin;
        repeat (destruct Hin as [Hin|Hin];
                [try discriminate Hin; inversion Hin; subst;
                 cbn in Hu; try discriminate Hu; inversion Hu; subst;
                 (split; [reflexivity | eexists; reflexivity])|]);
        try contradiction ]. }
  unfold result_of. cbv zeta. rewrite (emitted_eq _ _ _ _ E), E. exact H.
Qed.

Lemma rollback_escaping_exceptions_witness :
  result_of (rollback_release_from_releases input_closed "dev" None false "dev") []
    = Raised EOFError
  /\ never_runs is_helm_rollback
       (emitted (rollback_release_from_releases input_closed "dev" None false "dev") []).
Proof.
  destruct (proj1 (rollback_escaping_exceptions input_closed "dev" None false
                     "dev" []))
    as (Hr & _ & Hn & _).
  - vm_compute. left. reflexivity.
  - split; [exact Hr | exact Hn].
Defined.

(** ** More on the resolution step *)

(** X14. The resolution step fails in two ways only: with "No previous
    revisions available for rollback" for a history of fewer than 2 entries
    and no explicit revision, and with "Revision r not found" for an
    explicit revision outside the history.  The message "No previous
    revision found" of its second length check is never produced. *)
Theorem resolution_failures
    (H : list RevisionRecord) (revision : option Z) (message : Msg) :
  determine_target_revision H revision = inl message ->
  message <> MNoPreviousRevisionFound
  /\ ((revision = None /\ (length H < 2)%nat
       /\ message = MNoPreviousRevisionsAvailable)
      \/ (exists r, revision = Some r /\ ~ In r (map h_revision H)
                    /\ message = MRevisionNotFound r (map h_revision H))).
Proof.
  intros Hd. pose proof (determine_errors H revision message Hd) as Hc.
  split; [|exact Hc].
  destruct Hc as [(_ & _ & ->) | (r & _ & _ & ->)]; discriminate.
Qed.

Lemma resolution_failures_witness :
  MNoPreviousRevisionsAvailable <> MNoPreviousRevisionFound
  /\ ((@None Z = None /\ (length [rev_entry 1] < 2)%nat
       /\ MNoPreviousRevisionsAvailable = MNoPreviousRevisionsAvailable)
      \/ (exists r, None = Some r /\ ~ In r (map h_revision [rev_entry 1])
                    /\ MNoPreviousRevisionsAvailable
                       = MRevisionNotFound r (map h_revision [rev_entry 1]))).
Proof.
  apply (resolution_failures [rev_entry 1] None MNoPreviousRevisionsAvailable).
  reflexivity.
Defined.

(** A descending list of integers is determined by its elements. *)
Lemma descending_unique (l l' : list Z) :
  StronglySorted (fun a b => (b <= a)%Z) l ->
  StronglySorted (fun a b => (b <= a)%Z) l' ->
  Permutation l l' -> l = l'.
Proof.
  intros Hs. revert l'. induction Hs as [|a l Hs IH Ha]; intros l' Hs' Hp.
  - apply Permutation_nil in Hp. now subst.
  - destruct l' as [|b l'].
    + apply Permutation_sym, Permutation_nil in Hp. discriminate.
    + apply StronglySorted_inv in Hs' as [Hs' Hb].
      assert (a = b).
      { assert (In b (a :: l))
          by (eapply Permutation_in; [apply Permutation_sym, Hp | now left]).
        assert (In a (b :: l'))
          by (eapply Permutation_in; [apply Hp | now left]).
        rewrite Forall_forall in Ha, Hb.
        assert (b <= a)%Z by (destruct H as [->|H]; [lia | now apply Ha]).
        assert (a <= b)%Z by (destruct H0 as [->|H0]; [lia | now apply Hb]).
        lia. }
      subst b. f_equal. apply IH; trivial.
      now apply Permutation_cons_inv in Hp.
Qed.

Lemma sorted_reverse_keys_perm {A} (key : A -> Z) (l l' : list A) :
  Permutation l l' ->
  map key (Py.sorted_reverse key l) = map key (Py.sorted_reverse key l').
Proof.
  intros Hp. apply descending_unique.
  - apply sorted_keys_descending, sorted_reverse_sorted.
  - apply sorted_keys_descending, sorted_reverse_sorted.
  - apply Permutation_map.
    eapply perm_trans; [apply sorted_reverse_perm|].
    eapply perm_trans; [exact Hp|].
    apply Permutation_sym, sorted_reverse_perm.
Qed.

(** X15. The order in which the history lists its entries does not
    matter: two histories with the same entries in different orders
    resolve to the same target when no revision is given, and accept the
    same explicit revisions. *)
Theorem resolution_ignores_history_order
    (H H' : list RevisionRecord) :
  Permutation H H' ->
  determine_target_revision H None = determine_target_revision H' None
  /\ forall r,
       determine_target_revision H (Some r) = inr r
       <-> determine_target_revision H' (Some r) = inr r.
Proof.
  intros Hp. split.
  - pose proof (sorted_reverse_keys_perm h_revision H H' Hp) as Hk.
    unfold determine_target_revision.
    rewrite (Permutation_length Hp).
    destruct (length H' <? 2)%nat; cbn; trivial.
    destruct (Py.sorted_reverse h_revision H) as [|t [|s rest]];
      destruct (Py.sorted_reverse h_revision H') as [|t' [|s' rest']];
      cbn in Hk; try discriminate; trivial.
    inversion Hk. congruence.
  - intros r. rewrite !determine_explicit.
    assert (Hin : In r (map h_revision H) <-> In r (map h_revision H')).
    { split; apply Permutation_in;
        [|apply Permutation_sym]; now apply Permutation_map. }
    rewrite <- !contains_In in Hin.
    destruct (Py.contains r (map h_revision H)),
             (Py.contains r (map h_revision H'));
      split; trivial; try discriminate.
    + destruct Hin as [Hin _]. specialize (Hin eq_refl). discriminate.
    + destruct Hin as [_ Hin]. specialize (Hin eq_refl). discriminate.
Qed.

Lemma resolution_ignores_history_order_witness :
  determine_target_revision [rev_entry 1; rev_entry 3; rev_entry 2] None
    = determine_target_revision [rev_entry 3; rev_entry 2; rev_entry 1] None
  /\ forall r,
       determine_target_revision [rev_entry 1; rev_entry 3; rev_entry 2] (Some r)
         = inr r
       <-> determine_target_revision [rev_entry 3; rev_entry 2; rev_entry 1] (Some r)
         = inr r.
Proof.
  apply (resolution_ignores_history_order
           [rev_entry 1; rev_entry 3; rev_entry 2]
           [rev_entry 3; rev_entry 2; rev_entry 1]).
  apply Permutation_cons_app with (l1 := [rev_entry 3; rev_entry 2]) (l2 := []).
  cbn. apply Permutation_refl.
Defined.

(** ** Reading the documents *)

(** X16. [get_helm_history] and [get_helm_releases] return the parsed
    document exactly when the command exits with code 0 and prints a body
    that is not blank and parses; they return it as it is, an empty list
    too. *)
Theorem helm_documents_need_a_parsed_body
    (rt : Runtime) (environment : string) (namespace : option string)
    (tr : Trace) :
  let ns := match namespace with None => environment | Some n => n end in
  (forall history,
      result_of (get_helm_history rt environment namespace) tr
        = Returned (Some history)
      <-> exists stdout stderr,
            spawn rt (S (length tr)) (helm_history_command ns)
              = Exited 0 stdout stderr
            /\ Py.strip stdout <> ""
            /\ loads_history rt (Py.strip stdout) = Some history)
  /\
  (forall releases,
      result_of (get_helm_releases rt environment namespace) tr
        = Returned (Some releases)
      <-> exists stdout stderr,
            spawn rt (S (length tr)) (helm_list_command ns)
              = Exited 0 stdout stderr
            /\ Py.strip stdout <> ""
            /\ loads_releases rt (Py.strip stdout) = Some releases).
Proof.
  intros ns. split; intros doc;
    unfold result_of, get_helm_history, get_helm_releases, bind; fold ns;
    rewrite run_command_eq; cbv zeta;
    (destruct (spawn rt _ _) as [code out err| | |crash]; cbn -[Py.strip];
     [ destruct (code =? 0)%Z eqn:Ec; cbn -[Py.strip];
       [ apply Z.eqb_eq in Ec; subst code;
         destruct (Py.strip out) as [|c s] eqn:Es;
         [ split; [discriminate|];
           intros (o & e & Heq & Hne & _); inversion Heq; subst;
           rewrite Es in Hne; now elim Hne
         | rewrite <- Es;
           match goal with
           | |- context [match ?l with Some _ => _ | None => _ end] =>
               destruct l as [d|] eqn:El
           end; cbn;
           [ split;
             [ intros Heq; inversion Heq; subst; exists out, err;
               repeat split; trivial; rewrite Es; discriminate
             | intros (o & e & Heq & _ & Hl); inversion Heq; subst; congruence ]
           | split; [discriminate|];
             intros (o & e & Heq & _ & Hl); inversion Heq; subst; congruence ] ]
       | apply Z.eqb_neq in Ec; split; [discriminate|];
         intros (o & e & Heq & _); inversion Heq; contradiction ]
     | split; [discriminate | intros (o & e & Heq & _); discriminate]
     | split; [discriminate | intros (o & e & Heq & _); discriminate]
     | split; [destruct crash; discriminate
              | intros (o & e & Heq & _); discriminate] ]).
Qed.

Lemma helm_documents_need_a_parsed_body_witness :
  result_of (get_helm_history all_succeeds "dev" None) []
    = Returned (Some three_revisions).
Proof.
  apply (proj2 (proj1 (helm_documents_need_a_parsed_body all_succeeds "dev"
                         None []) three_revisions)).
  exists "history", "". repeat split; discriminate.
Defined.

(** X17. A pod list document without an [items] field counts as an empty
    list: [get_pods] returns [[]], not [None], and logs no error. *)
Theorem get_pods_defaults_missing_items
    (rt : Runtime) (environment : string) (namespace : option string)
    (tr : Trace) (stdout stderr : string) (data : PodList) :
  let ns := match namespace with None => environment | Some n => n end in
  spawn rt (S (length tr)) (get_pods_command ns) = Exited 0 stdout stderr ->
  Py.strip stdout <> "" ->
  loads_pods rt (Py.strip stdout) = Some data ->
  items data = None ->
  get_pods rt environment namespace tr =
    (Returned (Some []),
     [EExec (get_pods_command ns) true (Exited 0 stdout stderr);
      ELog INFO (MExecuting (get_pods_command ns))] ++ tr).
Proof.
  intros ns Ho Hne Hl Hi.
  unfold get_pods, bind. fold ns.
  rewrite run_command_eq. cbv zeta. rewrite Ho. cbn -[Py.strip].
  destruct (Py.strip stdout) as [|c s] eqn:Es; [now elim Hne|].
  unfold loads_pods in Hl.
  destruct (json_loads_pods rt (String c s)); try discriminate Hl.
  inversion Hl; subst. rewrite Hi. reflexivity.
Qed.

Lemma get_pods_defaults_missing_items_witness :
  get_pods no_items_field "dev" None [] =
    (Returned (Some []),
     [EExec (get_pods_command "dev") true (Exited 0 "pods" "");
      ELog INFO (MExecuting (get_pods_command "dev"))]).
Proof.
  apply (get_pods_defaults_missing_items no_items_field "dev" None []
           "pods" "" {| items := None |}); try reflexivity.
  discriminate.
Defined.

(** X18. When [kubectl get pods] exits with code 0 but prints nothing, or
    white space only, [get_pods] returns [None] without any error line:
    unlike a body that does not parse, this failure is silent. *)
Theorem get_pods_blank_body_is_silent
    (rt : Runtime) (environment : string) (namespace : option string)
    (tr : Trace) (stdout stderr : string) :
  let ns := match namespace with None => environment | Some n => n end in
  spawn rt (S (length tr)) (get_pods_command ns) = Exited 0 stdout stderr ->
  Py.strip stdout = "" ->
  get_pods rt environment namespace tr =
    (Returned None,
     [EExec (get_pods_command ns) true (Exited 0 stdout stderr);
      ELog INFO (MExecuting (get_pods_command ns))] ++ tr).
Proof.
  intros ns Ho Hs.
  unfold get_pods, bind. fold ns.
  rewrite run_command_eq. cbv zeta. rewrite Ho. cbn -[Py.strip].
  rewrite Hs. reflexivity.
Qed.

Lemma get_pods_blank_body_is_silent_witness :
  get_pods blank_output "dev" None [] =
    (Returned None,
     [EExec (get_pods_command "dev") true (Exited 0 "  " "");
      ELog INFO (MExecuting (get_pods_command "dev"))]).
Proof.
  apply (get_pods_blank_body_is_silent blank_output "dev" None [] "  " "");
    reflexivity.
Defined.

(** ** Reading the logs *)

(** X19. Following the logs ([follow]), [tail_logs] runs [kubectl logs]
    with [-f] and ignores how it ends: a non-zero exit code is not reported
    and the method returns normally; an interrupt ends it with "Log tailing
    stopped"; but a missing [kubectl] is not caught and leaves the method as
    [FileNotFoundError], and so does any other exception of
    [subprocess.run]. *)
Theorem follow_ignores_exit_code
    (rt : Runtime) (pod_name ns : string) (lines : Z) (tr : Trace) :
  let command :=
    ["kubectl"; "logs"; pod_name; "-n"; ns; "--tail"; Py.str lines; "-f"] in
  let started :=
    ELog INFO MPressCtrlC :: ELog INFO (MStartingLogTail pod_name) :: tr in
  let outcome := spawn rt (length started) command in
  tail_logs_stream rt pod_name ns true lines tr =
    match outcome with
    | Exited _ _ _ =>
        (Returned tt, EExec command false outcome :: started)
    | NoSuchFile =>
        (Raised FileNotFoundError, EExec command false outcome :: started)
    | CtrlC =>
        (Returned tt,
         ELog INFO MLogTailingStopped :: EExec command false outcome :: started)
    | Crashed e =>
        (Raised (exception_of e), EExec command false outcome :: started)
    end.
Proof.
  intros command started outcome.
  unfold tail_logs_stream, try_except, bind, subprocess_run, ret, log, emit.
  cbn -[Py.str]. fold command.
  subst outcome started. cbn [length].
  destruct (spawn rt (S (S (length tr))) command) as [code out err| | |crash];
    try reflexivity.
  destruct crash; reflexivity.
Qed.

(** X20. Without [follow], [tail_logs] prints the log text once, stripped
    of surrounding white space, exactly when [kubectl logs] exits with code
    0 and the stripped text is not empty.  It returns normally when the
    process exits, is not found or is interrupted; an exception that neither
    [run_command] nor the interrupt clause catches leaves the method. *)
Theorem logs_printed_when_present
    (rt : Runtime) (pod_name ns : string) (lines : Z) (tr : Trace) :
  let command :=
    ["kubectl"; "logs"; pod_name; "-n"; ns; "--tail"; Py.str lines] in
  let outcome := spawn rt (S (S (S (length tr)))) command in
  let m := tail_logs_stream rt pod_name ns false lines in
  result_of m tr = match outcome with
                   | Crashed e => Raised (exception_of e)
                   | _ => Returned tt
                   end
  /\ (forall text,
        In (EPrint text) (emitted m tr)
        <-> exists stdout stderr,
              outcome = Exited 0 stdout stderr
              /\ text = Py.strip stdout /\ text <> "")
  /\ (length (filter (fun e => match e with EPrint _ => true | _ => false end)
                (emitted m tr)) <= 1)%nat.
Proof.
  intros command outcome m. subst m.
  assert (exists events,
    tail_logs_stream rt pod_name ns false lines tr
      = (match outcome with
         | Crashed e => Raised (exception_of e)
         | _ => Returned tt
         end, events ++ tr)
    /\ (forall text,
          In (EPrint text) events
          <-> exists stdout stderr,
                outcome = Exited 0 stdout stderr
                /\ text = Py.strip stdout /\ text <> "")
    /\ (length (filter (fun e => match e with EPrint _ => true | _ => false end)
                  events) <= 1)%nat)
    as (events & E & H).
  { unfold tail_logs_stream, try_except, bind, print, log, emit, ret.
    cbn -[Py.str Py.strip]. fold command.
    rewrite run_command_eq. cbv zeta. cbn [length]. fold outcome.
    destruct outcome as [code out err| | |crash]; cbn -[Py.strip].
    - destruct (code =? 0)%Z eqn:Ec; cbn -[Py.strip].
      + apply Z.eqb_eq in Ec. subst code.
        destruct (Py.strip out) as [|c s] eqn:Es;
          (eexists; split; [apply pair_prefix; prefix|]);
          (split; [|cbn; lia]); intros text; cbn; split.
        * intros [H|[H|[H|[H|[]]]]]; discriminate.
        * intros (o & e & Heq & -> & Hne). inversion Heq; subst.
          rewrite Es in Hne. now elim Hne.
        * intros [H|[H|[H|[H|[H|[]]]]]]; try discriminate.
          inversion H; subst. exists out, err. rewrite Es.
          repeat split. discriminate.
        * intros (o & e & Heq & -> & _). inversion Heq; subst.
          rewrite Es. now left.
      + apply Z.eqb_neq in Ec.
        eexists; split; [apply pair_prefix; prefix|].
        split.
        * intros text. split.
          -- intros Hin. exfalso.
             rewrite in_app_iff in Hin. destruct Hin as [Hin|Hin].
             ++ unfold failure_output in Hin. rewrite in_app_iff in Hin.
                destruct Hin as [Hin|Hin];
                  match type of Hin with
                  | In _ (if ?b then _ else _) => destruct b
                  end; cbn in Hin; intuition discriminate.
             ++ cbn in Hin. intuition discriminate.
          -- intros (o & e & Heq & _). inversion Heq; subst. now elim Ec.
        * rewrite filter_app. rewrite length_app.
          unfold failure_output. rewrite filter_app, length_app.
          repeat match goal with
                 | |- context [if ?b then _ else _] => destruct b
                 end; cbn; lia.
    - eexists; split; [apply pair_prefix; prefix|].
      split; [|cbn; lia]. intros text; cbn; split.
      + intuition discriminate.
      + intros (o & e & Heq & _). discriminate.
    - eexists; split; [apply pair_prefix; prefix|].
      split; [|cbn; lia]. intros text; cbn; split.
      + intuition discriminate.
      + intros (o & e & Heq & _). discriminate.
    - destruct crash; cbn;
        (eexists; split; [apply pair_prefix; prefix|]);
        (split; [|cbn; lia]); intros text; cbn; split;
        first [ intuition discriminate
              | intros (o & e & Heq & _); discriminate ]. }
  unfold result_of. rewrite (emitted_eq _ _ _ _ E), E. now split.
Qed.

(** ** The rollback command and what is shown before it *)

Lemma to_int_not_nil (z : Z) :
  Z.to_int z <> Decimal.Pos Decimal.Nil /\ Z.to_int z <> Decimal.Neg Decimal.Nil.
Proof.
  pose proof (DecimalZ.to_of (Z.to_int z)) as Hn.
  rewrite DecimalZ.of_to in Hn.
  split; intros E; rewrite E in Hn; discriminate Hn.
Qed.

(** [str] writes different integers differently. *)
Lemma str_inj (a b : Z) : Py.str a = Py.str b -> a = b.
Proof.
  unfold Py.str. intros E.
  destruct (to_int_not_nil a) as [Ha1 Ha2].
  destruct (to_int_not_nil b) as [Hb1 Hb2].
  pose proof (NilZero.isi (Z.to_int a) Ha1 Ha2) as Ia.
  pose proof (NilZero.isi (Z.to_int b) Hb1 Hb2) as Ib.
  rewrite E, Ib in Ia. inversion Ia as [Hi].
  now apply DecimalZ.to_int_inj.
Qed.

(** X21. The rollback command names its target and namespace without
    loss: two rollback commands are equal only for the same target
    revision and the same namespace, and every one of them is recognised
    as [helm rollback] of [sample-app]. *)
Theorem rollback_command_names_its_target
    (target target' : Z) (ns ns' : string) :
  (helm_rollback_command target ns = helm_rollback_command target' ns'
   <-> target = target' /\ ns = ns')
  /\ is_helm_rollback (helm_rollback_command target ns) = true
  /\ nth_error (helm_rollback_command target ns) 2 = Some "sample-app".
Proof.
  split; [|split; reflexivity].
  split.
  - intros E. unfold helm_rollback_command in E. inversion E as [[Hs Hn]].
    split; [now apply str_inj | reflexivity].
  - intros [-> ->]. reflexivity.
Qed.

Lemma rollback_command_names_its_target_witness :
  helm_rollback_command 2 "dev" = helm_rollback_command 2 "dev".
Proof.
  apply (proj2 (proj1 (rollback_command_names_its_target 2 2 "dev" "dev"))).
  split; reflexivity.
Defined.




(** X23. "Helm release 'sample-app' not found" is logged only when
    [helm list] showed a list with entries none of which bears the exact
    name [sample-app] (an empty list is reported as "No Helm releases
    found" instead); the run then ends without reading the history. *)
Theorem release_not_found_means_other_releases
    (rt : Runtime) (environment : string) (revision : option Z)
    (confirm : bool) (ns : string) (tr : Trace) (app : string) :
  In (ELog ERROR (MReleaseNotFound app))
    (emitted (rollback_release_from_releases rt environment revision confirm ns) tr) ->
  app = "sample-app"
  /\ (exists stdout stderr releases,
        In (EExec (helm_list_command ns) true (Exited 0 stdout stderr))
          (emitted (rollback_release_from_releases rt environment revision confirm ns) tr)
        /\ loads_releases rt (Py.strip stdout) = Some releases
        /\ lists_other_releases releases)
  /\ runs is_helm_history
       (emitted (rollback_release_from_releases rt environment revision confirm ns) tr)
       = 0%nat
  /\ result_of (rollback_release_from_releases rt environment revision confirm ns) tr
       = Returned tt.
Proof.
  assert (exists r events,
    rollback_release_from_releases rt environment revision confirm ns tr
      = (r, events ++ tr) /\
    (In (ELog ERROR (MReleaseNotFound app)) events ->
     app = "sample-app"
     /\ (exists stdout stderr releases,
           In (EExec (helm_list_command ns) true (Exited 0 stdout stderr)) events
           /\ loads_releases rt (Py.strip stdout) = Some releases
           /\ lists_other_releases releases)
     /\ runs is_helm_history events = 0%nat
     /\ r = Returned tt))
    as (r & events & E & H).
  { run; done_with.
    all: intros Hin; cbn in Hin.
    all: repeat (destruct Hin as [Hin|Hin];
          [try discriminate; inversion Hin; subst|]);
         try contradiction.
    all: try match goal with
         | Hd : determine_target_revision _ _ = inl (MReleaseNotFound _) |- _ =>
             apply determine_errors in Hd
               as [(_ & _ & Hm) | (x & _ & _ & Hm)]; discriminate
         end.
    all: match goal with
         | Hsp : spawn _ _ (helm_list_command _) = Exited ?c ?out ?err,
           Hs : Py.strip ?out = _,
           Hl : loads_releases _ _ = Some ?l,
           Hf : _ = None |- _ =>
             let Hc := fresh "Hc" in
             assert (Hc : c = 0%Z) by (apply Z.eqb_eq; assumption);
             subst c;
             change (find (fun release => (r_name release =? app_name)%string) l
                     = None) in Hf;
             split; [reflexivity|];
             split;
             [ exists out, err, l;
               split; [cbn; tauto|];
               split; [rewrite Hs; exact Hl|];
               split; [discriminate|];
               intros release Hrel Hname;
               pose proof (find_none _ _ Hf release Hrel) as Hno;
               cbn in Hno; rewrite Hname, String.eqb_refl in Hno; discriminate
             | split; reflexivity ]
         end. }
  unfold result_of. rewrite (emitted_eq _ _ _ _ E), E. exact H.
Qed.

Lemma release_not_found_means_other_releases_witness :
  "sample-app" = "sample-app"
  /\ (exists stdout stderr releases,
        In (EExec (helm_list_command "dev") true (Exited 0 stdout stderr))
          (emitted (rollback_release_from_releases other_release_only "dev" None true "dev") [])
        /\ loads_releases other_release_only (Py.strip stdout) = Some releases
        /\ lists_other_releases releases)
  /\ runs is_helm_history
       (emitted (rollback_release_from_releases other_release_only "dev" None true "dev") [])
       = 0%nat
  /\ result_of (rollback_release_from_releases other_release_only "dev" None true "dev") []
       = Returned tt.
Proof.
  apply (release_not_found_means_other_releases other_release_only "dev" None
           true "dev" [] "sample-app").
  vm_compute. repeat (first [left; reflexivity | right]).
Defined.

(** ** Which logs are read *)

Lemma get_pods_events
    (rt : Runtime) (environment : string) (namespace : option string)
    (tr : Trace) :
  exists r events,
    get_pods rt environment namespace tr = (r, events ++ tr)
    /\ never_runs is_kubectl_logs events.
Proof. run; done_with; no_such_command. Qed.

Lemma pod_listing_only_logs (pods : list Pod) (e : Event) :
  In e (pod_listing pods) -> exists message, e = ELog INFO message.
Proof.
  unfold pod_listing. intros Hin. apply in_rev in Hin.
  apply in_map_iff in Hin as ([i p] & <- & _). eauto.
Qed.

Lemma tail_logs_from_pods_events
    (rt : Runtime) (environment : string) (follow : bool) (lines : Z)
    (pod_name : option string) (ns : string) (tr : Trace) :
  exists r events,
    tail_logs_from_pods rt environment follow lines pod_name ns tr
      = (r, events ++ tr)
    /\ forall command capture_output outcome,
         In (EExec command capture_output outcome) events ->
         is_kubectl_logs command = true ->
         exists p, command = logs_command p ns lines follow
                   /\ chosen_pod rt environment pod_name ns tr p.
Proof.
  destruct pod_name as [named|].
  - destruct (tail_logs_stream_events rt named ns follow lines tr)
      as (r & events & E & H).
    exists r, events. split.
    + unfold tail_logs_from_pods, tail_logs_select_pod, bind, ret. exact E.
    + intros c cap o Hin _. exists named. split; [now apply (H c cap o)|].
      reflexivity.
  - destruct (get_pods_events rt environment (Some ns) tr)
      as (rg & eg & Eg & Hg).
    assert (Hnone : forall c cap o extra,
               (forall e, In e extra -> exists lv m, e = ELog lv m) ->
               In (EExec c cap o) (extra ++ eg) ->
               is_kubectl_logs c = true -> False).
    { intros c cap o extra Hx Hin Hk. apply in_app_or in Hin as [Hin|Hin].
      - destruct (Hx _ Hin) as (lv & m & Heq). discriminate.
      - rewrite (Hg c cap o Hin) in Hk. discriminate. }
    destruct rg as [pods|e].
    + assert (Hres : result_of (get_pods rt environment (Some ns)) tr
                     = Returned pods)
        by (unfold result_of; now rewrite Eg).
      destruct pods as [[|p [|p2 l]]|].
      * exists (Returned tt), ([ELog ERROR MNoPodsFound] ++ eg). split.
        -- unfold tail_logs_from_pods, tail_logs_select_pod, bind.
           rewrite Eg. reflexivity.
        -- intros c cap o Hin Hk. exfalso.
           apply (Hnone c cap o [ELog ERROR MNoPodsFound]); trivial.
           intros e [<-|[]]. eauto.
      * destruct (tail_logs_stream_events rt (metadata_name p) ns follow lines
                    (ELog INFO (MUsingPod (metadata_name p)) :: eg ++ tr))
          as (r & events & E & H).
        exists r, (events ++ [ELog INFO (MUsingPod (metadata_name p))] ++ eg).
        split.
        -- unfold tail_logs_from_pods, tail_logs_select_pod, bind.
           rewrite Eg. cbn -[tail_logs_stream]. unfold log, emit, ret.
           rewrite E. now rewrite <- !app_assoc.
        -- intros c cap o Hin Hk. apply in_app_or in Hin as [Hin|Hin].
           ++ exists (metadata_name p). split; [now apply (H c cap o)|].
              exists [p]. split; [exact Hres | now left].
           ++ exfalso.
              apply (Hnone c cap o [ELog INFO (MUsingPod (metadata_name p))]);
                trivial.
              intros e [<-|[]]. eauto.
      * set (pods := p :: p2 :: l) in *.
        assert (Hlen : (2 <= length pods)%nat) by (cbn; lia).
        pose proof (tail_logs_from_pods_several rt environment follow lines
                      ns tr (eg ++ tr) pods Eg Hlen) as Hrun.
        cbv zeta in Hrun.
        set (listed := pod_listing pods ++ ELog INFO MMultiplePodsFound :: eg ++ tr) in *.
        set (answer := keyboard rt (length listed)) in *.
        set (shown := [EInput (PSelectPod (Z.of_nat (length pods) - 1)) answer]
                      ++ pod_listing pods ++ [ELog INFO MMultiplePodsFound]).
        assert (Hshown : EInput (PSelectPod (Z.of_nat (length pods) - 1)) answer
                         :: listed = (shown ++ eg) ++ tr).
        { unfold shown, listed. cbn. now rewrite <- !app_assoc. }
        assert (Hquiet : forall c cap o extra,
                   (forall e, In e extra -> exists lv m, e = ELog lv m) ->
                   In (EExec c cap o) (extra ++ shown ++ eg) ->
                   is_kubectl_logs c = true -> False).
        { intros c cap o extra Hx Hin Hk.
          apply in_app_or in Hin as [Hin|Hin].
          - destruct (Hx _ Hin) as (lv & m & Heq). discriminate.
          - apply in_app_or in Hin as [Hin|Hin].
            + unfold shown in Hin.
              apply in_app_or in Hin as [Hin|Hin];
                [destruct Hin as [Hin|[]]; discriminate|].
              apply in_app_or in Hin as [Hin|Hin].
              * apply pod_listing_only_logs in Hin as (m & Heq). discriminate.
              * destruct Hin as [Hin|[]]. discriminate.
            + rewrite (Hg c cap o Hin) in Hk. discriminate. }
        rewrite Hshown in Hrun.
        destruct answer as [s| |].
        -- destruct (int_of_str rt s) as [z|].
           ++ destruct ((0 <=? z)%Z && (z <? Z.of_nat (length pods))%Z)%bool.
              ** destruct (nth_error pods (Z.to_nat z)) as [chosen|] eqn:En.
                 --- destruct (tail_logs_stream_events rt (metadata_name chosen)
                                 ns follow lines ((shown ++ eg) ++ tr))
                       as (r & events & E & H).
                     exists r, (events ++ shown ++ eg). split.
                     +++ rewrite Hrun, E. now rewrite <- !app_assoc.
                     +++ intros c cap o Hin Hk.
                         apply in_app_or in Hin as [Hin|Hin].
                         *** exists (metadata_name chosen).
                             split; [now apply (H c cap o)|].
                             exists pods. split; [exact Hres|].
                             apply in_map. eapply nth_error_In. exact En.
                         *** exfalso. apply (Hquiet c cap o []); trivial.
                             intros e [].
                 --- exists (Raised IndexError), (shown ++ eg).
                     split; [exact Hrun|].
                     intros c cap o Hin Hk. exfalso.
                     apply (Hquiet c cap o []); trivial. intros e [].
              ** exists (Returned tt), ([ELog ERROR MInvalidSelection] ++ shown ++ eg).
                 split; [rewrite Hrun; now rewrite <- !app_assoc|].
                 intros c cap o Hin Hk. exfalso.
                 apply (Hquiet c cap o [ELog ERROR MInvalidSelection]); trivial.
                 intros e [<-|[]]. eauto.
           ++ exists (Returned tt), ([ELog WARNING MOperationCancelled] ++ shown ++ eg).
              split; [rewrite Hrun; now rewrite <- !app_assoc|].
              intros c cap o Hin Hk. exfalso.
              apply (Hquiet c cap o [ELog WARNING MOperationCancelled]); trivial.
              intros e [<-|[]]. eauto.
        -- exists (Returned tt), ([ELog WARNING MOperationCancelled] ++ shown ++ eg).
           split; [rewrite Hrun; now rewrite <- !app_assoc|].
           intros c cap o Hin Hk. exfalso.
           apply (Hquiet c cap o [ELog WARNING MOperationCancelled]); trivial.
           intros e [<-|[]]. eauto.
        -- exists (Raised EOFError), (shown ++ eg).
           split; [exact Hrun|].
           intros c cap o Hin Hk. exfalso.
           apply (Hquiet c cap o []); trivial. intros e [].
      * exists (Returned tt), ([ELog ERROR MNoPodsFound] ++ eg). split.
        -- unfold tail_logs_from_pods, tail_logs_select_pod, bind.
           rewrite Eg. reflexivity.
        -- intros c cap o Hin Hk. exfalso.
           apply (Hnone c cap o [ELog ERROR MNoPodsFound]); trivial.
           intros e0 [<-|[]]. eauto.
    + exists (Raised e), eg. split.
      * unfold tail_logs_from_pods, tail_logs_select_pod, bind.
        rewrite Eg. reflexivity.
      * intros c cap o Hin Hk. exfalso.
        apply (Hnone c cap o []); trivial. intros e0 [].
Qed.

(** X24. Behind the kubeconfig update, [tail_logs] reads the logs of no
    other pod than the one it was given or, when none was given, one of
    the pods that discovery returned; and it reads them in the namespace
    and with the line count and the [follow] option of the call. *)
Theorem logs_are_read_from_the_chosen_pod
    (rt : Runtime) (environment : string) (follow : bool) (lines : Z)
    (pod_name : option string) (ns : string) (tr : Trace)
    (command : list string) (capture_output : bool) (outcome : Outcome) :
  In (EExec command capture_output outcome)
    (emitted (tail_logs_from_pods rt environment follow lines pod_name ns) tr) ->
  is_kubectl_logs command = true ->
  exists p,
    command = logs_command p ns lines follow
    /\ chosen_pod rt environment pod_name ns tr p.
Proof.
  destruct (tail_logs_from_pods_events rt environment follow lines pod_name ns tr)
    as (r & events & E & H).
  rewrite (emitted_eq _ _ _ _ E). apply H.
Qed.

Lemma logs_are_read_from_the_chosen_pod_witness :
  exists p,
    logs_command "sample-app-b" "dev" 100 false
      = logs_command p "dev" 100 false
    /\ chosen_pod operator_picks_1 "dev" None "dev" [] p.
Proof.
  apply (logs_are_read_from_the_chosen_pod operator_picks_1 "dev" false 100
           None "dev" [] (logs_command "sample-app-b" "dev" 100 false)
           true (Exited 0 "" "")).
  - vm_compute. repeat (first [left; reflexivity | right]).
  - reflexivity.
Defined.
